(** * Ticket grabber: the acquisition run of the Go command-line tool

    A shallow embedding of [TicketGrabber] (package main), of the page
    methods it calls (package browser) and of the configuration records
    (package models).  The page session, the clock and the cancellation
    context are an abstract world threaded through every call; every effect
    the run performs is also written to an event list, so that statements
    about what a run does or never does are statements about that list. *)

From Stdlib Require Import ZArith List Ascii String Bool Lia.
From Stdlib Require Import Floats.PrimFloat Floats.FloatOps Floats.SpecFloat.
Import ListNotations.

Local Open Scope string_scope.
Local Open Scope list_scope.
Local Open Scope Z_scope.

(* ================================================================== *)
(** ** Errors, log lines and events *)

(** Go [error] values.  One constructor per site that creates an error;
    [fmt.Errorf("...: %v", err)] keeps its cause.  A nil error is [None]. *)
Inductive error : Type :=
| DriverError (code : nat)              (* whatever chromedp.Run returned *)
| ElementMissing (selector : string)    (* browser.ClickElement *)
| UnsupportedSite (site : string)       (* login, default branch *)
| LoginFailed (cause : error)           (* Start *)
| NavigationFailed (cause : error)      (* Start *)
| SeatSelectionFailed (cause : error)   (* purchaseTicket *)
| ConfirmFailed (cause : error)         (* purchaseTicket *)
| PaymentFailed (cause : error)         (* purchaseTicket *)
| NoSeatSelectable                      (* selectSeats *)
| NoBuyButton                           (* confirmPurchase *)
| PaymentTimeout.                       (* handlePayment *)

(** The lines written with [log.Println] / [log.Printf]. *)
Inductive LogMsg : Type :=
| LogNavigateTo (url : string)
| LogFillForm
| LogSubmitForm
| LogStart (name : string)
| LogLoggingIn
| LogLoginOk (site : string)
| LogEnteringConcert (url : string)
| LogEnteredConcert
| LogMonitorStart
| LogStopped
| LogCheckFailed (e : error)
| LogTicketsFound
| LogPurchaseFailed (e : error)
| LogPurchaseOk
| LogNoTickets
| LogPurchaseStart
| LogPurchaseDone
| LogSelectingSeats
| LogSeatTypeChosen (preference : string)
| LogSeatsDone
| LogConfirming
| LogBuyClicked
| LogPaymentStart
| LogPayManually
| LogPaymentOk.

(** The two cases of the [select] in the poll loop. *)
Inductive SelectCase : Type := CaseDone | CaseTick.

(** What a run does to the outside, in order. *)
Inductive Event : Type :=
| EvLog (m : LogMsg)
| EvSleep (ms : Z)
| EvNewTicker (d : Z)
| EvTickerStop
| EvSelect (c : SelectCase)
| EvNavigate (url : string) (r : option error)
| EvSetValues (fields : list (string * string)) (r : option error)
| EvClickSubmit (r : option error)
| EvEvaluate (selector : string) (found : bool) (r : option error)
| EvClick (selector : string) (r : option error).

(** How a call of the run ends.  [Running] is the model's answer when the
    poll loop was given too few iterations to come to an end. *)
Inductive Outcome : Type :=
| Returned (err : option error)
| Panicked
| Running.

(* ================================================================== *)
(** ** The world: page session, clock, ticker and context *)

(** The operations the run consumes and does not implement.  The context
    [ctx] that the Go code hands to every call is part of the world, so an
    operation may answer differently once the context is done.

    - [runNavigate url]: [chromedp.Run(ctx, chromedp.Navigate(url))];
    - [runSetValues fields]: [chromedp.Run] of one [SetValue] per field;
    - [runClickSubmit]: [chromedp.Run] of the click on the submit control;
    - [runEvaluate script]: [chromedp.Run(ctx, chromedp.Evaluate(script,
      &exists))], with the boolean it stored and the error it returned; a
      script that does not parse is one of the errors;
    - [runClick selector]: [chromedp.Run(ctx, chromedp.Click(selector))];
    - [sleepFor d]: [time.Sleep(d)];
    - [startTicker d], [stopTicker]: [time.NewTicker(d)] for [d > 0] and
      [ticker.Stop()];
    - [awaitSelect]: a [select] on [ctx.Done()] and [ticker.C] blocks until
      one of the two is ready; [ctxDone] and [tickPending] tell which are
      ready then, [schedPick] is the choice of the Go runtime when both
      are, and [recvTick] takes the tick. *)
Class Driver (W : Type) : Type := {
  runNavigate : string -> W -> option error * W;
  runSetValues : list (string * string) -> W -> option error * W;
  runClickSubmit : W -> option error * W;
  runEvaluate : string -> W -> (bool * option error) * W;
  runClick : string -> W -> option error * W;
  sleepFor : Z -> W -> W;
  startTicker : Z -> W -> W;
  stopTicker : W -> W;
  awaitSelect : W -> W;
  ctxDone : W -> bool;
  tickPending : W -> bool;
  schedPick : W -> SelectCase;
  recvTick : W -> W
}.

(** A computation over the world that also lists its events. *)
Definition M (W A : Type) : Type := W -> A * W * list Event.

Definition ret {W A} (a : A) : M W A := fun w => (a, w, []).

Definition bind {W A B} (m : M W A) (k : A -> M W B) : M W B :=
  fun w =>
    let '(a, w1, t1) := m w in
    let '(b, w2, t2) := k a w1 in
    (b, w2, t1 ++ t2).

Definition emit {W} (e : Event) : M W unit := fun w => (tt, w, [e]).

Definition logLine {W} (m : LogMsg) : M W unit := emit (EvLog m).

Declare Scope run_scope.
Delimit Scope run_scope with run.
Notation "x <- m ;; k" := (bind m (fun x => k))
  (at level 100, m at next level, right associativity) : run_scope.
Notation "' p <- m ;; k" := (bind m (fun x => match x with p => k end))
  (at level 100, p pattern, m at next level, right associativity) : run_scope.
Notation "m ;;; k" := (bind m (fun _ => k))
  (at level 100, right associativity) : run_scope.
Local Open Scope run_scope.

Definition result {W A} (r : A * W * list Event) : A := fst (fst r).
Definition final {W A} (r : A * W * list Event) : W := snd (fst r).
Definition events {W A} (r : A * W * list Event) : list Event := snd r.

(* ================================================================== *)
(** ** package models *)

Module Models.

Record SiteConfig : Type := {
  SiteName : string;
  SiteURL : string;
  LoginURL : string;
  SearchURL : string
}.

Definition zeroSite : SiteConfig :=
  {| SiteName := ""; SiteURL := ""; LoginURL := ""; SearchURL := "" |}.

Record TicketingConfig : Type := {
  Sites : list (string * SiteConfig);
  DefaultSite : string;
  AutoRefresh : bool;
  RefreshInterval : float;
  MaxRetries : Z;
  RetryDelay : float
}.

Record UserConfig : Type := {
  Username : string;
  Password : string;
  AutoLogin : bool
}.

Record Config : Type := {
  Ticketing : TicketingConfig;
  User : UserConfig
}.

Record Concert : Type := {
  ID : string;
  Name : string;
  URL : string;
  PreferredSeats : list string
}.

(** [m[key]] on a Go map: the zero value when the key is absent. *)
Fixpoint siteOf (sites : list (string * SiteConfig)) (key : string) : SiteConfig :=
  match sites with
  | [] => zeroSite
  | (k, v) :: rest => if String.eqb k key then v else siteOf rest key
  end.

End Models.

(* ================================================================== *)
(** ** package browser *)

Module Browser.

Definition lf : string := String "010"%char "".
Definition tab : string := String "009"%char "".

(** The script of [ElementExists]: [fmt.Sprintf] pastes the selector as it
    is, with [%s], between the two single quotes of the script text. *)
Definition scriptHead : string :=
  (lf ++ tab ++ tab ++ "document.querySelector('")%string.

Definition scriptTail : string := ("') !== null" ++ lf ++ tab)%string.

Definition existsScript (selector : string) : string :=
  (scriptHead ++ selector ++ scriptTail)%string.

Section WithDriver.
Context {W : Type} {D : Driver W}.

Definition Navigate (url : string) : M W (option error) :=
  logLine (LogNavigateTo url) ;;;
  fun w => let (r, w1) := runNavigate url w in (r, w1, [EvNavigate url r]).

(** The fields are a Go map; the order in which its [SetValue] actions are
    queued is not fixed by the language and is left to the driver. *)
Definition FillForm (fields : list (string * string)) : M W (option error) :=
  logLine LogFillForm ;;;
  fun w => let (r, w1) := runSetValues fields w in (r, w1, [EvSetValues fields r]).

Definition SubmitForm : M W (option error) :=
  logLine LogSubmitForm ;;;
  fun w => let (r, w1) := runClickSubmit w in (r, w1, [EvClickSubmit r]).

(** The event keeps the selector of the call; what the page evaluates is the
    script made from it. *)
Definition ElementExists (selector : string) : M W (bool * option error) :=
  fun w =>
    let '(found, r, w1) := runEvaluate (existsScript selector) w in
    ((found, r), w1, [EvEvaluate selector found r]).

(** [if err != nil || !exists] gives the element-missing error; an error of
    the click itself is returned as it is. *)
Definition ClickElement (selector : string) : M W (bool * option error) :=
  '(found, err) <- ElementExists selector ;;
  match err, found with
  | None, true =>
      fun w =>
        let (r, w1) := runClick selector w in
        (match r with
         | Some e => (false, Some e)
         | None => (true, None)
         end, w1, [EvClick selector r])
  | _, _ => ret (false, Some (ElementMissing selector))
  end.

End WithDriver.
End Browser.

(* ================================================================== *)
(** ** package time: durations and tickers *)

Module Time.

(** [time.Duration] is an int64 count of nanoseconds. *)
Definition Millisecond : Z := 1000000.
Definition Second : Z := 1000000000.

Definition wrap64 (z : Z) : Z := (z + 2 ^ 63) mod 2 ^ 64 - 2 ^ 63.

Definition inInt64 (z : Z) : bool := (- 2 ^ 63 <=? z) && (z <? 2 ^ 63).

(** The integer part of a float64, the fraction discarded; [None] for NaN
    and the infinities. *)
Definition truncate (x : float) : option Z :=
  match Prim2SF x with
  | S754_zero _ => Some 0
  | S754_finite s m e =>
      let mag := if 0 <=? e then Z.shiftl (Zpos m) e else Z.shiftr (Zpos m) (- e) in
      Some (if s then - mag else mag)
  | S754_infinity _ => None
  | S754_nan => None
  end.

(** The conversion [time.Duration(x)] of a float64 [x].  Where int64 cannot
    hold the value Go leaves the result to the implementation: it is
    [platform x]. *)
Definition durationOfFloat (platform : float -> Z) (x : float) : Z :=
  match truncate x with
  | Some n => if inInt64 n then n else wrap64 (platform x)
  | None => wrap64 (platform x)
  end.

(** [time.NewTicker(d)] panics when [d <= 0]. *)
Definition tickerPanics (d : Z) : bool := d <=? 0.

End Time.

(* ================================================================== *)
(** ** package main: TicketGrabber *)

Module Grabber.
Import Models Browser.

Definition availabilitySelectors : list string :=
  [".ticket-available"; ".btn-buy"; "[data-status='available']"; ".seat-available"].

Definition purchaseSelectors : list string :=
  [".btn-purchase"; ".btn-buy"; "[data-action='purchase']"].

Definition seatTypeSelector (preference : string) : string :=
  ("[data-seat-type='" ++ preference ++ "']")%string.

Section WithDriver.
Context {W : Type} {D : Driver W}.
(** The implementation's int64 for a float64 that int64 cannot hold. *)
Variable platform : float -> Z.
Variable config : Config.

Definition sleep (d : Z) : M W unit :=
  fun w => (tt, sleepFor d w, [EvSleep d]).

(** [select { case <-ctx.Done(): ... case <-ticker.C: ... }]: the Done case
    can be taken only when the context is done, and must be when no tick is
    waiting. *)
Definition selectDoneOrTick : M W SelectCase :=
  fun w =>
    let w1 := awaitSelect w in
    let c := match ctxDone w1, tickPending w1 with
             | true, true => schedPick w1
             | true, false => CaseDone
             | false, _ => CaseTick
             end in
    (c, match c with CaseTick => recvTick w1 | CaseDone => w1 end, [EvSelect c]).

(** loginInterpark, loginYes24 and loginMelon are the same code up to the
    site key and the two form field names. *)
Definition loginWith (site userField passField : string) : M W (option error) :=
  let loginURL := LoginURL (siteOf (Sites (Ticketing config)) site) in
  err <- Navigate loginURL ;;
  match err with
  | Some e => ret (Some e)
  | None =>
      err <- FillForm [(userField, Username (User config));
                       (passField, Password (User config))] ;;
      match err with
      | Some e => ret (Some e)
      | None =>
          err <- SubmitForm ;;
          match err with
          | Some e => ret (Some e)
          | None => logLine (LogLoginOk site) ;;; ret None
          end
      end
  end.

Definition loginInterpark : M W (option error) :=
  loginWith "interpark" "username" "password".
Definition loginYes24 : M W (option error) :=
  loginWith "yes24" "userId" "userPw".
Definition loginMelon : M W (option error) :=
  loginWith "melon" "id" "pw".

Definition login : M W (option error) :=
  logLine LogLoggingIn ;;;
  let site := DefaultSite (Ticketing config) in
  if String.eqb site "interpark" then loginInterpark
  else if String.eqb site "yes24" then loginYes24
  else if String.eqb site "melon" then loginMelon
  else ret (Some (UnsupportedSite site)).

Definition navigateToConcert (concert : Concert) : M W (option error) :=
  logLine (LogEnteringConcert (URL concert)) ;;;
  err <- Navigate (URL concert) ;;
  match err with
  | Some e => ret (Some e)
  | None =>
      sleep (2 * Time.Second) ;;;
      logLine LogEnteredConcert ;;;
      ret None
  end.

(** The [for _, selector := range selectors] of checkTicketAvailability. *)
Fixpoint checkSelectors (selectors : list string) : M W (bool * option error) :=
  match selectors with
  | [] => ret (false, None)
  | selector :: rest =>
      '(found, err) <- ElementExists selector ;;
      match err with
      | Some _ => checkSelectors rest
      | None => if found then ret (true, None) else checkSelectors rest
      end
  end.

Definition checkTicketAvailability : M W (bool * option error) :=
  checkSelectors availabilitySelectors.

(** The [for _, preference := range concert.PreferredSeats] of selectSeats;
    [true] when the loop body returned nil. *)
Fixpoint selectPreferred (preferences : list string) : M W bool :=
  match preferences with
  | [] => ret false
  | preference :: rest =>
      '(clicked, err) <- ClickElement (seatTypeSelector preference) ;;
      match err, clicked with
      | None, true => logLine (LogSeatTypeChosen preference) ;;; ret true
      | _, _ => selectPreferred rest
      end
  end.

Definition selectSeats (concert : Concert) : M W (option error) :=
  logLine LogSelectingSeats ;;;
  done <- selectPreferred (PreferredSeats concert) ;;
  if done then ret None
  else
    '(clicked, err) <- ClickElement ".seat-available" ;;
    match err, clicked with
    | None, true => logLine LogSeatsDone ;;; ret None
    | _, _ => ret (Some NoSeatSelectable)
    end.

(** The [for _, selector := range selectors] of confirmPurchase. *)
Fixpoint clickFirst (selectors : list string) : M W bool :=
  match selectors with
  | [] => ret false
  | selector :: rest =>
      '(clicked, err) <- ClickElement selector ;;
      match err, clicked with
      | None, true => logLine LogBuyClicked ;;; ret true
      | _, _ => clickFirst rest
      end
  end.

Definition confirmPurchase : M W (option error) :=
  logLine LogConfirming ;;;
  done <- clickFirst purchaseSelectors ;;
  if done then ret None else ret (Some NoBuyButton).

(** [for i := 0; i < 60; i++], on the number of iterations left. *)
Fixpoint paymentChecks (left : nat) : M W (option error) :=
  match left with
  | O => ret (Some PaymentTimeout)
  | S left' =>
      sleep (1 * Time.Second) ;;;
      '(success, err) <- ElementExists ".payment-success" ;;
      match err, success with
      | None, true => logLine LogPaymentOk ;;; ret None
      | _, _ => paymentChecks left'
      end
  end.

Definition handlePayment : M W (option error) :=
  logLine LogPaymentStart ;;;
  sleep (3 * Time.Second) ;;;
  logLine LogPayManually ;;;
  paymentChecks 60.

Definition purchaseTicket (concert : Concert) : M W (option error) :=
  logLine LogPurchaseStart ;;;
  err <- selectSeats concert ;;
  match err with
  | Some e => ret (Some (SeatSelectionFailed e))
  | None =>
      err <- confirmPurchase ;;
      match err with
      | Some e => ret (Some (ConfirmFailed e))
      | None =>
          err <- handlePayment ;;
          match err with
          | Some e => ret (Some (PaymentFailed e))
          | None => logLine LogPurchaseDone ;;; ret None
          end
      end
  end.

(** The body of the [for { select { ... } }] of monitorTickets.  [next] is
    the following iteration: where the body says [continue] or runs off its
    end. *)
Definition pollCycle (next : M W Outcome) (concert : Concert) : M W Outcome :=
  c <- selectDoneOrTick ;;
  match c with
  | CaseDone => logLine LogStopped ;;; ret (Returned None)
  | CaseTick =>
      '(available, err) <- checkTicketAvailability ;;
      match err with
      | Some e => logLine (LogCheckFailed e) ;;; next
      | None =>
          if available then
            logLine LogTicketsFound ;;;
            err <- purchaseTicket concert ;;
            match err with
            | Some e => logLine (LogPurchaseFailed e) ;;; next
            | None => logLine LogPurchaseOk ;;; ret (Returned None)
            end
          else logLine LogNoTickets ;;; next
      end
  end.

(** The loop itself; [fuel] bounds the number of iterations the model
    follows. *)
Fixpoint monitorLoop (fuel : nat) (concert : Concert) : M W Outcome :=
  match fuel with
  | O => ret Running
  | S fuel' => pollCycle (monitorLoop fuel' concert) concert
  end.

(** [time.Duration(tg.config.Ticketing.RefreshInterval*1000) * time.Millisecond] *)
Definition refreshInterval : Z :=
  Time.wrap64
    (Time.durationOfFloat platform
       (PrimFloat.mul (RefreshInterval (Ticketing config)) 1000%float)
     * Time.Millisecond).

(** [defer ticker.Stop()] runs when the function returns; the panic of
    [time.NewTicker] comes before the ticker exists. *)
Definition monitorTickets (fuel : nat) (concert : Concert) : M W Outcome :=
  logLine LogMonitorStart ;;;
  if Time.tickerPanics refreshInterval then ret Panicked
  else
    (fun w => (tt, startTicker refreshInterval w, [EvNewTicker refreshInterval])) ;;;
    out <- monitorLoop fuel concert ;;
    match out with
    | Running => ret Running
    | _ => (fun w => (tt, stopTicker w, [EvTickerStop])) ;;; ret out
    end.

Definition Start (fuel : nat) (concert : Concert) : M W Outcome :=
  logLine (LogStart (Name concert)) ;;;
  err <- login ;;
  match err with
  | Some e => ret (Returned (Some (LoginFailed e)))
  | None =>
      err <- navigateToConcert concert ;;
      match err with
      | Some e => ret (Returned (Some (NavigationFailed e)))
      | None => monitorTickets fuel concert
      end
  end.

End WithDriver.
End Grabber.

(* ================================================================== *)
(** ** package browser: creating the browser *)

Module Chrome.

Inductive ExecAllocatorOption : Type :=
| NoFirstRun
| NoDefaultBrowserCheck
| DisableGPU
| NoSandbox
| Flag (name : string) (value : bool)
| Headless.

Record Options : Type := {
  OptHeadless : bool;
  OptDebug : bool;
  OptTimeout : Z
}.

(** The option list NewBrowser hands to [chromedp.NewExecAllocator]. *)
Definition chromeOpts (opts : Options) : list ExecAllocatorOption :=
  let base := [NoFirstRun; NoDefaultBrowserCheck; DisableGPU; NoSandbox;
               Flag "disable-dev-shm-usage" true;
               Flag "disable-infobars" true;
               Flag "disable-extensions" true;
               Flag "start-maximized" true] in
  let withHeadless := if OptHeadless opts then base ++ [Headless] else base in
  if OptDebug opts then withHeadless ++ [Flag "enable-logging" true]
  else withHeadless.

(** The browser value: the options it keeps and the allocator options its
    context was made from.  The error result is always nil. *)
Record Browser : Type := {
  opts : Options;
  allocator : list ExecAllocatorOption
}.

Definition NewBrowser (o : Options) : Browser * option error :=
  ({| opts := o; allocator := chromeOpts o |}, None).

End Chrome.

(* ================================================================== *)
(** ** package main: main and its helpers *)

Module Main.
Import Models.

(** [for _, concert := range concerts { if concert.ID == id { return &concert } }];
    the pointer is to the loop's copy, [None] is nil. *)
Fixpoint findConcertByID (concerts : list Concert) (id : string) : option Concert :=
  match concerts with
  | [] => None
  | concert :: rest =>
      if String.eqb (ID concert) id then Some concert
      else findConcertByID rest id
  end.



(** The calls of [log.Fatal] and [log.Fatalf] in main. *)
Inductive Fatal : Type :=
| FatalLoadConfig (code : nat)
| FatalNewBrowser (e : error)
| FatalConcertNotFound (id : string)
| FatalNoConcerts
| FatalGrab (e : error).



(** The choice of the concert to grab. *)
Definition targetConcert (concerts : list Concert) (id : string) : Fatal + Concert :=
  if negb (String.eqb id "") then
    match findConcertByID concerts id with
    | None => inl (FatalConcertNotFound id)
    | Some concert => inr concert
    end
  else
    match concerts with
    | [] => inl FatalNoConcerts
    | concert :: _ => inr concert
    end.


Section WithDriver.
Context {W : Type} {D : Driver W}.
Variable platform : float -> Z.


End WithDriver.
End Main.

(* ================================================================== *)
(** ** package api: the HTTP client *)

Module Api.
Import Models.

Record LoginRequest : Type := {
  ReqUsername : string;
  ReqPassword : string
}.

Record LoginResponse : Type := {
  Success : bool;
  Message : string;
  Token : string
}.

Record Request : Type := {
  Method : string;
  Target : string;
  Header : list (string * string);
  Body : option string
}.

(** An HTTP response: its status code and what [io.ReadAll] makes of its
    body, the bytes or an error. *)
Record Response : Type := {
  StatusCode : Z;
  ReadBody : string + nat
}.

Inductive apiError : Type :=
| MarshalError (code : nat)             (* json.Marshal *)
| NewRequestError (code : nat)          (* http.NewRequestWithContext *)
| DoError (code : nat)                  (* c.client.Do *)
| ReadError (code : nat)                (* io.ReadAll *)
| HTTPError (status : Z) (body : string)
| UnmarshalError (code : nat)           (* json.Unmarshal *)
| LoginRejected (message : string)
| SiteNotSupported (site : string).

Inductive Try (A : Type) : Type :=
| Ok (a : A)
| Failed (e : apiError).
Arguments Ok {A} a.
Arguments Failed {A} e.

(** What a call of the client does, in order: its log lines and its calls
    of [c.client.Do].  [DoCall r] is one call of [Do], with the request as
    the code built it.  The client of [NewClient] sets no [CheckRedirect],
    so [http.Client] follows redirects by its default policy: what goes
    over the wire for one call of [Do] can be several requests, to other
    URLs, and is not listed here. *)
Inductive ApiEvent : Type :=
| LogLoginTo (site : string)
| LogLoggedIn (site : string)
| DoCall (r : Request).

(** [http.Header.Set]: the value of the key is replaced, or the key added. *)
Fixpoint setHeader (key value : string) (h : list (string * string))
  : list (string * string) :=
  match h with
  | [] => [(key, value)]
  | (k, v) :: rest =>
      if String.eqb k key then (key, value) :: rest
      else (k, v) :: setHeader key value rest
  end.

Definition answer {W A} (r : A * W * list ApiEvent) : A := fst (fst r).
Definition trace {W A} (r : A * W * list ApiEvent) : list ApiEvent := snd r.

Section WithClient.
Context {W : Type}.
(** What the code takes from its libraries: the JSON encoder and decoder,
    the check [http.NewRequestWithContext] makes of method and URL, and
    [http.Client.Do], the only one to touch the world: [clientDo req] is
    the response [Do] hands back in the end, after the redirects it chose
    to follow, or its error. *)
Variable marshal : LoginRequest -> string + nat.
Variable unmarshal : string -> LoginResponse + nat.
Variable checkRequest : string -> string -> option nat.
Variable clientDo : Request -> W -> (Response + nat) * W.
Variable config : Config.
(** [c.config.Browser.UserAgent] *)
Variable userAgent : string.

Definition postRequest (url jsonData : string) : Request :=
  {| Method := "POST"; Target := url;
     Header := setHeader "User-Agent" userAgent
                 (setHeader "Content-Type" "application/json" []);
     Body := Some jsonData |}.

Definition getRequest (url : string) : Request :=
  {| Method := "GET"; Target := url;
     Header := setHeader "User-Agent" userAgent [];
     Body := None |}.

(** The part post and get share: call [Do] once, read the body, accept
    status 200 only. *)
Definition roundTrip (req : Request) : W -> Try string * W * list ApiEvent :=
  fun w =>
    let (r, w1) := clientDo req w in
    match r with
    | inr code => (Failed (DoError code), w1, [DoCall req])
    | inl resp =>
        match ReadBody resp with
        | inr code => (Failed (ReadError code), w1, [DoCall req])
        | inl body =>
            if negb (StatusCode resp =? 200)
            then (Failed (HTTPError (StatusCode resp) body), w1, [DoCall req])
            else (Ok body, w1, [DoCall req])
        end
    end.

Definition post (url : string) (data : LoginRequest)
  : W -> Try string * W * list ApiEvent :=
  fun w =>
    match marshal data with
    | inr code => (Failed (MarshalError code), w, [])
    | inl jsonData =>
        match checkRequest "POST" url with
        | Some code => (Failed (NewRequestError code), w, [])
        | None => roundTrip (postRequest url jsonData) w
        end
    end.

Definition get (url : string) : W -> Try string * W * list ApiEvent :=
  fun w =>
    match checkRequest "GET" url with
    | Some code => (Failed (NewRequestError code), w, [])
    | None => roundTrip (getRequest url) w
    end.

(** [InterParkClient.Login], [Yes24Client.Login] and [MelonClient.Login]
    are the same code up to the site key. *)
Definition siteLogin (site : string) : W -> option apiError * W * list ApiEvent :=
  fun w =>
    let loginURL := LoginURL (siteOf (Sites (Ticketing config)) site) in
    let req := {| ReqUsername := Username (User config);
                  ReqPassword := Password (User config) |} in
    let '(resp, w1, t) := post loginURL req w in
    match resp with
    | Failed e => (Some e, w1, t)
    | Ok body =>
        match unmarshal body with
        | inr code => (Some (UnmarshalError code), w1, t)
        | inl loginResp =>
            if negb (Success loginResp)
            then (Some (LoginRejected (Message loginResp)), w1, t)
            else (None, w1, t ++ [LogLoggedIn site])
        end
    end.

(** [Client.Login] *)
Definition Login (site : string) : W -> option apiError * W * list ApiEvent :=
  fun w =>
    let '(r, w1, t) :=
      if String.eqb site "interpark" then siteLogin "interpark" w
      else if String.eqb site "yes24" then siteLogin "yes24" w
      else if String.eqb site "melon" then siteLogin "melon" w
      else (Some (SiteNotSupported site), w, []) in
    (r, w1, LogLoginTo site :: t).

End WithClient.
End Api.

(* ================================================================== *)
(** ** A scripted world

    The world is the number of driver operations performed so far; what each
    operation answers at each step is given by a script. *)

Module Script.

(** The selector a script of [Browser.existsScript] was made from: the text
    between the fixed head and tail of the script. *)
Definition selectorOf (script : string) : string :=
  substring (String.length Browser.scriptHead)
            (String.length script
             - String.length Browser.scriptHead
             - String.length Browser.scriptTail)%nat
            script.

Fixpoint holdsQuote (s : string) : bool :=
  match s with
  | EmptyString => false
  | String c rest => Ascii.eqb c "'"%char || holdsQuote rest
  end.

Record Script : Type := {
  onNavigate : nat -> string -> option error;
  onSetValues : nat -> list (string * string) -> option error;
  onSubmit : nat -> option error;
  onEvaluate : nat -> string -> bool * option error;
  onClick : nat -> string -> option error;
  cancelled : nat -> bool;
  ticking : nat -> bool;
  pick : nat -> SelectCase
}.

Definition driver (sc : Script) : Driver nat := {|
  runNavigate url n := (onNavigate sc n url, S n);
  runSetValues fields n := (onSetValues sc n fields, S n);
  runClickSubmit n := (onSubmit sc n, S n);
  runEvaluate script n := (onEvaluate sc n script, S n);
  runClick selector n := (onClick sc n selector, S n);
  sleepFor _ n := S n;
  startTicker _ n := S n;
  stopTicker n := S n;
  awaitSelect n := S n;
  ctxDone n := cancelled sc n;
  tickPending n := ticking sc n;
  schedPick n := pick sc n;
  recvTick n := S n
|}.

(** A page on which exactly the selectors of [present] exist and every
    existing element can be clicked; never cancelled, a tick always due.
    This page and its variants below read the selector back out of the
    script and answer for that selector: they say nothing of how an engine
    parses the script, which [chrome] does. *)
Definition page (present : list string) : Script := {|
  onNavigate _ _ := None;
  onSetValues _ _ := None;
  onSubmit _ := None;
  onEvaluate _ script := (existsb (String.eqb (selectorOf script)) present, None);
  onClick _ _ := None;
  cancelled _ := false;
  ticking _ := true;
  pick _ := CaseTick
|}.

(** As [page], with the payment-success element appearing at step [from]. *)
Definition latePayment (present : list string) (from : nat) : Script := {|
  onNavigate _ _ := None;
  onSetValues _ _ := None;
  onSubmit _ := None;
  onEvaluate n script :=
    if String.eqb (selectorOf script) ".payment-success" then (Nat.leb from n, None)
    else (existsb (String.eqb (selectorOf script)) present, None);
  onClick _ _ := None;
  cancelled _ := false;
  ticking _ := true;
  pick _ := CaseTick
|}.

(** As [page], with the navigation of step [at] failing, and no other. *)
Definition flakyNavigation (present : list string) (at_ : nat) : Script := {|
  onNavigate n _ := if Nat.eqb n at_ then Some (DriverError 1) else None;
  onSetValues _ _ := None;
  onSubmit _ := None;
  onEvaluate _ script := (existsb (String.eqb (selectorOf script)) present, None);
  onClick _ _ := None;
  cancelled _ := false;
  ticking _ := true;
  pick _ := CaseTick
|}.

(** As [page], with the context cancelled at step [from]: from then on the
    context is done and every page operation returns the context's error. *)
Definition cancelledFrom (present : list string) (from : nat) : Script := {|
  onNavigate n _ := if Nat.leb from n then Some (DriverError 0) else None;
  onSetValues n _ := if Nat.leb from n then Some (DriverError 0) else None;
  onSubmit n := if Nat.leb from n then Some (DriverError 0) else None;
  onEvaluate n script :=
    if Nat.leb from n then (false, Some (DriverError 0))
    else (existsb (String.eqb (selectorOf script)) present, None);
  onClick n _ := if Nat.leb from n then Some (DriverError 0) else None;
  cancelled n := Nat.leb from n;
  ticking _ := true;
  pick _ := CaseDone
|}.

(** The page as Chrome evaluates the scripts of this program.  A single
    quote inside the selector ends the string literal of the script early:
    for [[data-seat-type='VIP']] the engine reads the literal
    ['[data-seat-type='], the name [VIP] and the literal [']'] side by side,
    which is a syntax error, and [chromedp.Evaluate] returns it as the error
    of the call.  So it is for every selector of this program that holds a
    quote ([[data-status='available']], [[data-action='purchase']] and the
    seat type of a tag made of letters and digits).  A selector without a
    quote is looked up as on [page]; [chromedp.Click] is handed the selector
    itself and finds every element of [present]. *)
Definition syntaxError : error := DriverError 2.

Definition chrome (present : list string) : Script := {|
  onNavigate _ _ := None;
  onSetValues _ _ := None;
  onSubmit _ := None;
  onEvaluate _ script :=
    if holdsQuote (selectorOf script) then (false, Some syntaxError)
    else (existsb (String.eqb (selectorOf script)) present, None);
  onClick _ selector :=
    if existsb (String.eqb selector) present then None else Some (DriverError 3);
  cancelled _ := false;
  ticking _ := true;
  pick _ := CaseTick
|}.

(** Any of the pages above with the scripts parsed as on [chrome]: where the
    page would have answered without error, a selector that holds a quote
    is answered with the syntax error. *)
Definition strict (sc : Script) : Script := {|
  onNavigate := onNavigate sc;
  onSetValues := onSetValues sc;
  onSubmit := onSubmit sc;
  onEvaluate n script :=
    match onEvaluate sc n script with
    | (found, Some e) => (found, Some e)
    | (found, None) =>
        if holdsQuote (selectorOf script) then (false, Some syntaxError)
        else (found, None)
    end;
  onClick := onClick sc;
  cancelled := cancelled sc;
  ticking := ticking sc;
  pick := pick sc
|}.

(** Pages of the scenarios: tickets on sale with a VIP seat and a purchase
    button; the same without the button; nothing on sale; seats of the two
    preferred types with and without a seat of the generic class. *)
Definition onSale : list string :=
  [".ticket-available"; "[data-seat-type='VIP']"; ".btn-purchase"].

Definition noButton : list string :=
  [".ticket-available"; "[data-seat-type='VIP']"].

Definition soldOut : list string := [].

Definition seatsOfBothTypes : list string :=
  ["[data-seat-type='VIP']"; "[data-seat-type='A']"].

Definition seatsOfAllKinds : list string :=
  ["[data-seat-type='VIP']"; "[data-seat-type='A']"; ".seat-available"].

Definition onSaleWithGenericSeat : list string := ".seat-available" :: onSale.

(** The int64 an amd64 build produces for a float64 out of range. *)
Definition amd64 (_ : float) : Z := - 2 ^ 63.

Definition site (name : string) : Models.Config := {|
  Models.Ticketing := {|
    Models.Sites :=
      [("interpark",
        {| Models.SiteName := "Interpark";
           Models.SiteURL := "https://tickets.interpark.com";
           Models.LoginURL := "https://tickets.interpark.com/login";
           Models.SearchURL := "https://tickets.interpark.com/search" |})];
    Models.DefaultSite := name;
    Models.AutoRefresh := true;
    Models.RefreshInterval := 0.5%float;
    Models.MaxRetries := 3;
    Models.RetryDelay := 1%float |};
  Models.User := {| Models.Username := "fan"; Models.Password := "secret";
                    Models.AutoLogin := true |} |}.

Definition withInterval (ri : float) : Models.Config := {|
  Models.Ticketing := {|
    Models.Sites := Models.Sites (Models.Ticketing (site "interpark"));
    Models.DefaultSite := "interpark";
    Models.AutoRefresh := true;
    Models.RefreshInterval := ri;
    Models.MaxRetries := 3;
    Models.RetryDelay := 1%float |};
  Models.User := Models.User (site "interpark") |}.

Definition show (preferred : list string) : Models.Concert := {|
  Models.ID := "c1";
  Models.Name := "Seoul Night";
  Models.URL := "https://tickets.interpark.com/show/1";
  Models.PreferredSeats := preferred |}.

End Script.

(* ================================================================== *)
(** ** A scripted server *)

Module ApiScript.
Import Api.

(** A toy encoding of the credentials and of the server's answers. *)
Definition encode (r : LoginRequest) : string + nat :=
  inl (ReqUsername r ++ ":" ++ ReqPassword r)%string.

Definition decode (body : string) : LoginResponse + nat :=
  if String.eqb body "welcome"
  then inl {| Success := true; Message := ""; Token := "t0" |}
  else if String.eqb body "denied"
  then inl {| Success := false; Message := "wrong password"; Token := "" |}
  else inr 1%nat.

(** [http.NewRequestWithContext] parses the URL; of the URLs it rejects the
    scenarios know those that begin with a colon (no protocol scheme). *)
Definition wellFormed (method url : string) : option nat :=
  if String.prefix ":" url then Some 2%nat else None.

(** A server that answers every request with the given status and body;
    the world counts the requests. *)
Definition server (status : Z) (body : string) (req : Request) (n : nat)
  : (Response + nat) * nat :=
  (inl {| StatusCode := status; ReadBody := inl body |}, S n).

End ApiScript.

(* ================================================================== *)
(** ** Vocabulary of the statements *)

(** An indicator matches when its query reports the element without error. *)
Definition matched (a : bool * option error) : bool :=
  match a with
  | (true, None) => true
  | _ => false
  end.

(** The queries of the first [length answers] selectors, in order, with the
    answers they received. *)
Definition queries (selectors : list string) (answers : list (bool * option error))
  : list Event :=
  map (fun p => EvEvaluate (fst p) (fst (snd p)) (snd (snd p)))
      (combine selectors answers).

(** The answers of the page to the scripts of [selectors], asked one after
    the other from [w], each in the world the query before it left; the
    world after the first [n] of these queries; and the number of answers a
    scan reads that stops at the first match. *)
Section Answers.
Context {W : Type} {D : Driver W}.
Import Browser.

Fixpoint pageAnswers (selectors : list string) (w : W)
  : list (bool * option error) :=
  match selectors with
  | [] => []
  | selector :: rest =>
      fst (runEvaluate (existsScript selector) w)
      :: pageAnswers rest (snd (runEvaluate (existsScript selector) w))
  end.

Fixpoint afterQueries (n : nat) (selectors : list string) (w : W) : W :=
  match n, selectors with
  | S n', selector :: rest =>
      afterQueries n' rest (snd (runEvaluate (existsScript selector) w))
  | _, _ => w
  end.

End Answers.

Fixpoint scanned (answers : list (bool * option error)) : nat :=
  match answers with
  | [] => 0
  | a :: rest => if matched a then 1 else S (scanned rest)
  end.

(** What "attempt each tag in list order" means in a world that changes with
    every attempt: the click of the first tag happens in [w], the click of
    the next in the world the first one left, and so on. *)
Section Attempts.
Context {W : Type} {D : Driver W}.
Import Grabber Browser.

Definition clickable (selector : string) (w : W) : bool :=
  matched (result (ClickElement selector w)).

Fixpoint noneClickable (tags : list string) (w : W) : bool :=
  match tags with
  | [] => true
  | tag :: rest =>
      negb (clickable (seatTypeSelector tag) w)
      && noneClickable rest (final (ClickElement (seatTypeSelector tag) w))
  end.

Fixpoint afterAttempts (tags : list string) (w : W) : W :=
  match tags with
  | [] => w
  | tag :: rest => afterAttempts rest (final (ClickElement (seatTypeSelector tag) w))
  end.

Fixpoint attemptEvents (tags : list string) (w : W) : list Event :=
  match tags with
  | [] => []
  | tag :: rest =>
      events (ClickElement (seatTypeSelector tag) w)
      ++ attemptEvents rest (final (ClickElement (seatTypeSelector tag) w))
  end.

End Attempts.

(** The first steps of one iteration of the poll loop from [w]: the select,
    the availability poll after a tick, the purchase after a find. *)
Section Cycle.
Context {W : Type} {D : Driver W}.
Import Grabber.

Definition selected (w : W) := selectDoneOrTick w.
Definition polled (w : W) := checkTicketAvailability (final (selected w)).
Definition purchased (concert : Models.Concert) (w : W) :=
  purchaseTicket concert (final (polled w)).

(** The four ways an iteration can go. *)
Inductive CycleCase (concert : Models.Concert) (w : W) : Prop :=
| CycleDone :
    result (selected w) = CaseDone -> CycleCase concert w
| CycleNoTickets :
    result (selected w) = CaseTick ->
    fst (result (polled w)) = false -> CycleCase concert w
| CycleFailed e :
    result (selected w) = CaseTick ->
    fst (result (polled w)) = true ->
    result (purchased concert w) = Some e -> CycleCase concert w
| CycleBought :
    result (selected w) = CaseTick ->
    fst (result (polled w)) = true ->
    result (purchased concert w) = None -> CycleCase concert w.

End Cycle.

(** The kinds of events the statements tell apart. *)


Definition isQuery (e : Event) : bool :=
  match e with
  | EvEvaluate _ _ _ => true
  | _ => false
  end.

(** Everything purchaseTicket does after its opening log line: seat
    selection, purchase confirmation and the payment wait. *)
Definition isPurchaseWork (e : Event) : bool :=
  match e with
  | EvEvaluate _ _ _ | EvClick _ _ | EvSleep _ => true
  | EvLog LogSelectingSeats | EvLog (LogSeatTypeChosen _) | EvLog LogSeatsDone
  | EvLog LogConfirming | EvLog LogBuyClicked
  | EvLog LogPaymentStart | EvLog LogPayManually | EvLog LogPaymentOk
  | EvLog LogPurchaseDone => true
  | _ => false
  end.



Definition isCheckFailed (e : Event) : bool :=
  match e with
  | EvLog (LogCheckFailed _) => true
  | _ => false
  end.

(** The events of login and of the navigation to the concert page. *)
Definition isSetupEvent (e : Event) : bool :=
  match e with
  | EvLog (LogStart _) | EvLog LogLoggingIn | EvLog (LogLoginOk _)
  | EvLog (LogNavigateTo _) | EvLog LogFillForm | EvLog LogSubmitForm
  | EvLog (LogEnteringConcert _) | EvLog LogEnteredConcert => true
  | EvNavigate _ _ | EvSetValues _ _ | EvClickSubmit _ | EvSleep _ => true
  | _ => false
  end.

(** The events of login alone. *)
Definition isLoginEvent (e : Event) : bool :=
  match e with
  | EvLog LogLoggingIn | EvLog (LogLoginOk _)
  | EvLog (LogNavigateTo _) | EvLog LogFillForm | EvLog LogSubmitForm => true
  | EvNavigate _ _ | EvSetValues _ _ | EvClickSubmit _ => true
  | _ => false
  end.

Definition isNavigation (e : Event) : bool :=
  match e with
  | EvNavigate _ _ => true
  | _ => false
  end.

Definition isNavigationTo (url : string) (e : Event) : bool :=
  match e with
  | EvNavigate u _ => String.eqb u url
  | _ => false
  end.

Definition isPaymentTimeout (e : Event) : bool :=
  match e with
  | EvLog (LogPurchaseFailed (PaymentFailed PaymentTimeout)) => true
  | _ => false
  end.

(** A check of the payment wait that saw the payment-success element. *)
Definition isPaymentSuccess (e : Event) : bool :=
  match e with
  | EvEvaluate ".payment-success" true None => true
  | _ => false
  end.

Definition isSelect (e : Event) : bool :=
  match e with
  | EvSelect _ => true
  | _ => false
  end.

Definition isSleep (e : Event) : bool :=
  match e with
  | EvSleep _ => true
  | _ => false
  end.

(** The time spent in [time.Sleep], in nanoseconds. *)
Definition slept (t : list Event) : Z :=
  fold_right (fun e acc => match e with EvSleep d => d + acc | _ => acc end) 0 t.

Definition count (cls : Event -> bool) (t : list Event) : nat :=
  List.length (filter cls t).

(** What follows the first event of the given kind. *)
Fixpoint afterFirst (cls : Event -> bool) (t : list Event) : list Event :=
  match t with
  | [] => []
  | e :: rest => if cls e then rest else afterFirst cls rest
  end.

Definition isNot (cls : Event -> bool) (e : Event) : bool := negb (cls e).

(** The events of the poll loop. *)
Definition isLoopEvent (e : Event) : bool :=
  match e with
  | EvSelect _ => true
  | EvLog LogStopped | EvLog LogTicketsFound | EvLog LogNoTickets
  | EvLog LogPurchaseStart | EvLog (LogPurchaseFailed _) | EvLog LogPurchaseOk => true
  | _ => isPurchaseWork e
  end.

Definition isNewTicker (e : Event) : bool :=
  match e with
  | EvNewTicker _ => true
  | _ => false
  end.

Definition isTickerStop (e : Event) : bool :=
  match e with
  | EvTickerStop => true
  | _ => false
  end.

(** A click that went through. *)
Definition isDoneClick (e : Event) : bool :=
  match e with
  | EvClick _ None => true
  | _ => false
  end.

Definition isClick (e : Event) : bool :=
  match e with
  | EvClick _ _ => true
  | _ => false
  end.

(** A click on one of the purchase buttons. *)
Definition isPurchaseClick (e : Event) : bool :=
  match e with
  | EvClick selector _ =>
      existsb (String.eqb selector) Grabber.purchaseSelectors
  | _ => false
  end.

(** The events of the payment wait: sleeping, looking for the
    payment-success element, and its log lines. *)
Definition isPaymentWait (e : Event) : bool :=
  match e with
  | EvSleep _ => true
  | EvEvaluate ".payment-success" _ _ => true
  | EvLog LogPaymentStart | EvLog LogPayManually | EvLog LogPaymentOk => true
  | _ => false
  end.

(** The events of seat selection: queries and clicks of seat selectors. *)
Definition isSeatSelector (selector : string) : bool :=
  String.eqb selector ".seat-available"
  || String.prefix "[data-seat-type='" selector.

Definition isSeatEvent (e : Event) : bool :=
  match e with
  | EvEvaluate selector _ _ | EvClick selector _ => isSeatSelector selector
  | EvLog LogSelectingSeats | EvLog (LogSeatTypeChosen _) | EvLog LogSeatsDone => true
  | _ => false
  end.

Definition isFormEvent (e : Event) : bool :=
  match e with
  | EvSetValues _ _ | EvClickSubmit _ => true
  | _ => false
  end.

(** The selectors queried, in the order of the queries. *)
Definition queried (t : list Event) : list string :=
  flat_map (fun e => match e with
                     | EvEvaluate selector _ _ => [selector]
                     | _ => []
                     end) t.

(** The sites login knows. *)
Definition supportedSite (site : string) : bool :=
  String.eqb site "interpark" || String.eqb site "yes24"
  || String.eqb site "melon".

(** Every event of the list is of the given kind. *)
Definition only (cls : Event -> bool) (t : list Event) : Prop :=
  Forall (fun e => cls e = true) t.


(* ================================================================== *)
(** ** Running a computation *)

Section RunFacts.
Context {W : Type}.

Lemma run_eta {A} (r : A * W * list Event) : r = (result r, final r, events r).
Proof. destruct r as [[a w] t]; reflexivity. Qed.

Lemma result_run {A} (a : A) (w : W) t : result (a, w, t) = a.
Proof. reflexivity. Qed.

Lemma final_run {A} (a : A) (w : W) t : final (a, w, t) = w.
Proof. reflexivity. Qed.

Lemma events_run {A} (a : A) (w : W) t : events (a, w, t) = t.
Proof. reflexivity. Qed.

Lemma run_eta_parts {A} (r : A * W * list Event) :
  (result r, final r, events r) = r.
Proof. destruct r as [[a w] t]; reflexivity. Qed.

Lemma bind_result {A B} (m : M W A) (k : A -> M W B) w :
  result (bind m k w) = result (k (result (m w)) (final (m w))).
Proof.
  unfold bind, result, final.
  destruct (m w) as [[a w1] t1]; simpl.
  destruct (k a w1) as [[b w2] t2]; reflexivity.
Qed.

Lemma bind_final {A B} (m : M W A) (k : A -> M W B) w :
  final (bind m k w) = final (k (result (m w)) (final (m w))).
Proof.
  unfold bind, result, final.
  destruct (m w) as [[a w1] t1]; simpl.
  destruct (k a w1) as [[b w2] t2]; reflexivity.
Qed.

Lemma bind_events {A B} (m : M W A) (k : A -> M W B) w :
  events (bind m k w)
  = events (m w) ++ events (k (result (m w)) (final (m w))).
Proof.
  unfold bind, result, final, events.
  destruct (m w) as [[a w1] t1]; simpl.
  destruct (k a w1) as [[b w2] t2]; reflexivity.
Qed.

Lemma bind_run {A B} (m : M W A) (k : A -> M W B) w :
  bind m k w
  = (result (k (result (m w)) (final (m w))),
     final (k (result (m w)) (final (m w))),
     events (m w) ++ events (k (result (m w)) (final (m w)))).
Proof.
  rewrite (run_eta (bind m k w)), bind_result, bind_final, bind_events.
  reflexivity.
Qed.

End RunFacts.

(* ================================================================== *)
(** ** The availability poll *)

Section Availability.
Context {W : Type} {D : Driver W}.
Import Grabber Browser.

Lemma ElementExists_run selector (w : W) :
  ElementExists selector w
  = (fst (runEvaluate (existsScript selector) w), snd (runEvaluate (existsScript selector) w),
     [EvEvaluate selector (fst (fst (runEvaluate (existsScript selector) w)))
                 (snd (fst (runEvaluate (existsScript selector) w)))]).
Proof.
  unfold ElementExists.
  destruct (runEvaluate (existsScript selector) w) as [[found r] w1]; reflexivity.
Qed.

Lemma checkSelectors_err_nil selectors (w : W) :
  snd (result (checkSelectors selectors w)) = None.
Proof.
  revert w; induction selectors as [|selector rest IH]; intro w; simpl.
  - reflexivity.
  - rewrite bind_result.
    destruct (result (ElementExists selector w)) as [found [e|]].
    + apply IH.
    + destruct found; [reflexivity | apply IH].
Qed.

Lemma checkSelectors_scan selectors (w : W) :
  exists answers,
    (List.length answers <= List.length selectors)%nat
    /\ events (checkSelectors selectors w) = queries selectors answers
    /\ result (checkSelectors selectors w) = (existsb matched answers, None)
    /\ forallb (fun a => negb (matched a)) (removelast answers) = true
    /\ (existsb matched answers = false -> List.length answers = List.length selectors).
Proof.
  revert w; induction selectors as [|selector rest IH]; intro w; simpl.
  - exists []; repeat split; auto.
  - rewrite bind_result, bind_events, ElementExists_run.
    unfold result, final, events; simpl.
    destruct (runEvaluate (existsScript selector) w) as [[found r] w1]; simpl.
    assert (Hmiss : matched (found, r) = false ->
      exists answers,
        (List.length answers <= S (List.length rest))%nat
        /\ EvEvaluate selector found r :: snd (checkSelectors rest w1)
           = queries (selector :: rest) answers
        /\ fst (fst (checkSelectors rest w1)) = (existsb matched answers, None)
        /\ forallb (fun a => negb (matched a)) (removelast answers) = true
        /\ (existsb matched answers = false -> List.length answers = S (List.length rest))).
    { intro Hm.
      destruct (IH w1) as (answers & Hlen & Hev & Hres & Hpre & Hall).
      exists ((found, r) :: answers).
      unfold result, events in Hev, Hres.
      split; [simpl; lia|].
      split; [unfold queries; simpl; f_equal; exact Hev|].
      split; [cbn [existsb]; rewrite Hm; exact Hres|].
      split.
      - destruct answers as [|a answers']; [reflexivity|].
        change (removelast ((found, r) :: a :: answers'))
          with ((found, r) :: removelast (a :: answers')).
        cbn [forallb]. rewrite Hm. exact Hpre.
      - cbn [existsb List.length]. rewrite Hm. cbn [orb].
        intro Hn. rewrite (Hall Hn). reflexivity. }
    destruct r as [e|].
    + apply Hmiss. destruct found; reflexivity.
    + destruct found.
      * exists [(true, None)].
        split; [simpl; lia|].
        split; [unfold queries; cbn; rewrite combine_nil; reflexivity|].
        split; [reflexivity|].
        split; [reflexivity|].
        cbn. discriminate.
      * apply Hmiss. reflexivity.
Qed.

Lemma pageAnswers_length selectors (w : W) :
  List.length (pageAnswers selectors w) = List.length selectors.
Proof.
  revert w; induction selectors as [|selector rest IH]; intro w.
  - reflexivity.
  - cbn [pageAnswers List.length]. rewrite IH. reflexivity.
Qed.

(** The poll is the scan of the page's own answers: it is true when one of
    them matches, it asks no further than the first match, and it leaves the
    world where the last query it asked left it. *)
Lemma checkSelectors_follows_page selectors (w : W) :
  checkSelectors selectors w
  = ((existsb matched (pageAnswers selectors w), None),
     afterQueries (scanned (pageAnswers selectors w)) selectors w,
     queries selectors
       (firstn (scanned (pageAnswers selectors w)) (pageAnswers selectors w))).
Proof.
  revert w; induction selectors as [|selector rest IH]; intro w.
  - reflexivity.
  - cbn [checkSelectors pageAnswers scanned existsb].
    rewrite bind_run, ElementExists_run.
    rewrite !result_run, !final_run, !events_run.
    destruct (runEvaluate (existsScript selector) w) as [[found r] w1] eqn:Hq.
    cbn [fst snd].
    destruct r as [e|]; [|destruct found].
    + replace (matched (found, Some e)) with false by (destruct found; reflexivity).
      cbn [orb firstn afterQueries]. rewrite Hq. cbn [snd].
      rewrite IH, !result_run, !final_run, !events_run. reflexivity.
    + cbn [matched orb firstn afterQueries]. rewrite Hq. cbn [snd].
      unfold queries. cbn. rewrite combine_nil. reflexivity.
    + cbn [matched orb firstn afterQueries]. rewrite Hq. cbn [snd].
      rewrite IH, !result_run, !final_run, !events_run. reflexivity.
Qed.

Lemma scanned_bounds answers :
  (scanned answers <= List.length answers)%nat
  /\ (answers <> [] -> 1 <= scanned answers)%nat.
Proof.
  induction answers as [|a rest [IHle IHpos]]; cbn [scanned List.length].
  - split; [lia | intro H; contradiction H; reflexivity].
  - destruct (matched a); split; intros; lia.
Qed.

Lemma scanned_misses answers :
  forallb (fun a => negb (matched a)) (firstn (scanned answers - 1) answers) = true.
Proof.
  induction answers as [|a rest IH]; cbn [scanned].
  - reflexivity.
  - destruct (matched a) eqn:Hm.
    + reflexivity.
    + destruct rest as [|b rest'].
      * reflexivity.
      * assert (Hpos : (1 <= scanned (b :: rest'))%nat)
          by (apply scanned_bounds; discriminate).
        replace (S (scanned (b :: rest')) - 1)%nat
          with (S (scanned (b :: rest') - 1)) by lia.
        cbn [firstn forallb]. rewrite Hm. exact IH.
Qed.

Lemma scanned_hit answers :
  existsb matched answers = true ->
  matched (nth (scanned answers - 1) answers (false, None)) = true.
Proof.
  induction answers as [|a rest IH]; cbn [scanned existsb].
  - discriminate.
  - destruct (matched a) eqn:Hm.
    + intros _. exact Hm.
    + cbn [orb]. intro Hrest.
      destruct rest as [|b rest']; [discriminate Hrest|].
      assert (Hpos : (1 <= scanned (b :: rest'))%nat)
        by (apply scanned_bounds; discriminate).
      replace (S (scanned (b :: rest')) - 1)%nat
        with (S (scanned (b :: rest') - 1)) by lia.
      cbn [nth]. apply IH. exact Hrest.
Qed.

Lemma scanned_all answers :
  existsb matched answers = false -> scanned answers = List.length answers.
Proof.
  induction answers as [|a rest IH]; cbn [scanned existsb List.length].
  - reflexivity.
  - destruct (matched a); [discriminate|].
    cbn [orb]. intro Hrest. rewrite (IH Hrest). reflexivity.
Qed.

(** C6.  checkTicketAvailability is the ordered scan of what the page
    answers.  With [answers] the page's answers to the scripts of the four
    indicators, asked in list order, the poll returns true exactly when one
    of them matches (the element reported, no error), with a nil error; the
    queries it makes are those of the first [n] indicators, where the [n]-th
    is the first that matches, or all four when none does, and it leaves the
    page as the [n]-th query left it.  An answer with an error counts as a
    miss and the scan goes on. *)
Theorem checkTicketAvailability_first_match (w : W) :
  let answers := pageAnswers availabilitySelectors w in
  let n := scanned answers in
  checkTicketAvailability w
  = ((existsb matched answers, None),
     afterQueries n availabilitySelectors w,
     queries availabilitySelectors (firstn n answers))
  /\ List.length answers = 4%nat
  /\ (1 <= n <= 4)%nat
  /\ forallb (fun a => negb (matched a)) (firstn (n - 1) answers) = true
  /\ (existsb matched answers = true ->
      matched (nth (n - 1) answers (false, None)) = true)
  /\ (existsb matched answers = false -> n = 4%nat)
  /\ (forall found e, matched (found, Some e) = false).
Proof.
  intros answers n.
  assert (Hlen : List.length answers = 4%nat)
    by (unfold answers; rewrite pageAnswers_length; reflexivity).
  split; [apply checkSelectors_follows_page|].
  split; [exact Hlen|].
  split.
  { destruct (scanned_bounds answers) as [Hle Hpos]. fold n in Hle, Hpos.
    split; [apply Hpos; intro He; rewrite He in Hlen; discriminate Hlen | lia]. }
  split; [apply scanned_misses|].
  split; [apply scanned_hit|].
  split.
  { intro Hnone. unfold n. rewrite (scanned_all _ Hnone). exact Hlen. }
  intros found e; destruct found; reflexivity.
Qed.

End Availability.

(* ================================================================== *)
(** ** Seat selection *)

Section SeatSelection.
Context {W : Type} {D : Driver W}.
Import Grabber Browser Models.

Lemma selectPreferred_none tags (w : W) :
  noneClickable tags w = true ->
  selectPreferred tags w = (false, afterAttempts tags w, attemptEvents tags w).
Proof.
  revert w; induction tags as [|tag rest IH]; intros w Hnone.
  - reflexivity.
  - cbn [noneClickable] in Hnone. apply andb_true_iff in Hnone.
    destruct Hnone as [Hfail Hrest]. unfold clickable in Hfail.
    cbn [selectPreferred afterAttempts attemptEvents].
    rewrite bind_run.
    destruct (result (ClickElement (seatTypeSelector tag) w)) as [[|] [e|]];
      try (cbn in Hfail; discriminate Hfail);
      rewrite (IH _ Hrest); reflexivity.
Qed.

Lemma selectPreferred_first pre tag post (w : W) :
  noneClickable pre w = true ->
  clickable (seatTypeSelector tag) (afterAttempts pre w) = true ->
  selectPreferred (pre ++ tag :: post) w
  = (true,
     final (ClickElement (seatTypeSelector tag) (afterAttempts pre w)),
     attemptEvents pre w
     ++ events (ClickElement (seatTypeSelector tag) (afterAttempts pre w))
     ++ [EvLog (LogSeatTypeChosen tag)]).
Proof.
  revert w; induction pre as [|tag0 rest IH]; intros w Hnone Hclick.
  - cbn [app afterAttempts attemptEvents selectPreferred] in *.
    unfold clickable in Hclick. rewrite bind_run.
    destruct (result (ClickElement (seatTypeSelector tag) w)) as [[|] [e|]];
      try (cbn in Hclick; discriminate Hclick).
    reflexivity.
  - cbn [noneClickable] in Hnone. apply andb_true_iff in Hnone.
    destruct Hnone as [Hfail Hrest]. unfold clickable in Hfail.
    cbn [app afterAttempts attemptEvents selectPreferred] in *.
    rewrite bind_run, <- app_assoc.
    destruct (result (ClickElement (seatTypeSelector tag0) w)) as [[|] [e|]];
      try (cbn in Hfail; discriminate Hfail);
      rewrite (IH _ Hrest Hclick); reflexivity.
Qed.

(** The loops of selectSeats, for every page.  The preferred tags are tried
    in list order and the first click that succeeds ends the selection, the
    later tags untried; when none succeeds one click of the generic seat
    selector follows, and its failure is the no-seat error.  Whether the
    click of a tag can succeed is for the page to say, which is first asked
    the script of [ElementExists]: see [rejected_tags_are_skipped]. *)
Lemma selectSeats_in_order (concert : Concert) (w : W) :
  (forall pre tag post,
      PreferredSeats concert = pre ++ tag :: post ->
      noneClickable pre w = true ->
      clickable (seatTypeSelector tag) (afterAttempts pre w) = true ->
      selectSeats concert w
      = (None,
         final (ClickElement (seatTypeSelector tag) (afterAttempts pre w)),
         EvLog LogSelectingSeats
         :: attemptEvents pre w
         ++ events (ClickElement (seatTypeSelector tag) (afterAttempts pre w))
         ++ [EvLog (LogSeatTypeChosen tag)]))
  /\ (noneClickable (PreferredSeats concert) w = true ->
      let w' := afterAttempts (PreferredSeats concert) w in
      let generic := ClickElement ".seat-available" w' in
      selectSeats concert w
      = (if matched (result generic) then None else Some NoSeatSelectable,
         final generic,
         EvLog LogSelectingSeats
         :: attemptEvents (PreferredSeats concert) w
         ++ events generic
         ++ (if matched (result generic) then [EvLog LogSeatsDone] else []))).
Proof.
  split.
  - intros pre tag post Hprefs Hnone Hclick.
    unfold selectSeats. rewrite Hprefs.
    rewrite bind_run. cbn [logLine emit result final events fst snd app].
    rewrite bind_run, (selectPreferred_first _ _ _ _ Hnone Hclick).
    cbn [result final events fst snd ret].
    rewrite app_nil_r. reflexivity.
  - intros Hnone w' generic.
    unfold selectSeats.
    rewrite bind_run. cbn [logLine emit result final events fst snd app].
    rewrite bind_run, (selectPreferred_none _ _ Hnone).
    cbn [result final events fst snd].
    fold w'. rewrite bind_run. fold generic.
    destruct (result generic) as [[|] [e|]];
      cbn; rewrite ?app_nil_r; reflexivity.
Qed.

(** A tag whose script the page rejects is never clicked: [ClickElement]
    takes the error of the query for a missing element.  When the page
    rejects the script of every preferred tag, the selection is left to the
    generic seat selector, whatever seats the page holds. *)
Lemma rejected_tags_are_skipped (tags : list string) (w : W) :
  (forall tag w', In tag tags ->
     snd (fst (runEvaluate (existsScript (seatTypeSelector tag)) w')) <> None) ->
  noneClickable tags w = true
  /\ Forall (fun e => match e with EvClick _ _ => False | _ => True end)
            (attemptEvents tags w).
Proof.
  revert w; induction tags as [|tag rest IH]; intros w Hrej.
  - split; [reflexivity | constructor].
  - assert (Hrest : forall tag' w', In tag' rest ->
              snd (fst (runEvaluate (existsScript (seatTypeSelector tag')) w')) <> None)
      by (intros tag' w' Hin; apply Hrej; right; exact Hin).
    pose proof (Hrej tag w (or_introl eq_refl)) as Hq.
    cbn [noneClickable attemptEvents]. unfold clickable, ClickElement.
    rewrite bind_run, ElementExists_run.
    rewrite !result_run, !final_run, !events_run.
    destruct (runEvaluate (existsScript (seatTypeSelector tag)) w)
      as [[found [e|]] w1]; [|contradiction Hq; reflexivity].
    cbn [fst snd ret result final events matched negb andb app].
    destruct (IH w1 Hrest) as [Hnone Hclicks].
    split; [exact Hnone|].
    constructor; [exact I | exact Hclicks].
Qed.

End SeatSelection.

(* ================================================================== *)
(** ** Which events each phase can produce *)

Section Alphabets.
Context {W : Type} {D : Driver W}.
Import Grabber Browser Models.

Lemma only_bind {A B} cls (m : M W A) (k : A -> M W B) w :
  only cls (events (m w)) ->
  (forall a w', only cls (events (k a w'))) ->
  only cls (events (bind m k w)).
Proof.
  intros Hm Hk. rewrite bind_events. apply Forall_app. split; [exact Hm | apply Hk].
Qed.

Lemma only_weaken (cls cls' : Event -> bool) t :
  (forall e, cls e = true -> cls' e = true) -> only cls t -> only cls' t.
Proof. intros Himp Ht. eapply Forall_impl; [|exact Ht]. exact Himp. Qed.

Lemma only_ElementExists cls selector (w : W) :
  (forall found r, cls (EvEvaluate selector found r) = true) ->
  only cls (events (ElementExists selector w)).
Proof.
  intro Hc. unfold ElementExists.
  destruct (runEvaluate (existsScript selector) w) as [[found r] w1].
  repeat constructor. apply Hc.
Qed.

Lemma only_ClickElement cls selector (w : W) :
  (forall found r, cls (EvEvaluate selector found r) = true) ->
  (forall r, cls (EvClick selector r) = true) ->
  only cls (events (ClickElement selector w)).
Proof.
  intros He Hc. unfold ClickElement.
  apply only_bind; [apply only_ElementExists; exact He|].
  intros [found [e|]] w'; [constructor|].
  destruct found; [|constructor].
  unfold events; cbv beta.
  destruct (runClick selector w') as [[e|] w1]; repeat constructor; apply Hc.
Qed.

Lemma only_checkSelectors selectors (w : W) :
  only isQuery (events (checkSelectors selectors w)).
Proof.
  revert w; induction selectors as [|selector rest IH]; intro w;
    cbn [checkSelectors]; [constructor|].
  apply only_bind; [apply only_ElementExists; reflexivity|].
  intros [found [e|]] w'; [apply IH|].
  destruct found; [constructor | apply IH].
Qed.

Lemma only_selectPreferred tags (w : W) :
  only isPurchaseWork (events (selectPreferred tags w)).
Proof.
  revert w; induction tags as [|tag rest IH]; intro w;
    cbn [selectPreferred]; [constructor|].
  apply only_bind; [apply only_ClickElement; reflexivity|].
  intros [[|] [e|]] w'; try apply IH.
  repeat constructor.
Qed.

Lemma only_selectSeats concert (w : W) :
  only isPurchaseWork (events (selectSeats concert w)).
Proof.
  unfold selectSeats.
  apply only_bind; [repeat constructor|]. intros _ w1.
  apply only_bind; [apply only_selectPreferred|]. intros [|] w2; [constructor|].
  apply only_bind; [apply only_ClickElement; reflexivity|].
  intros [[|] [e|]] w3; repeat constructor.
Qed.

Lemma only_clickFirst selectors (w : W) :
  only isPurchaseWork (events (clickFirst selectors w)).
Proof.
  revert w; induction selectors as [|selector rest IH]; intro w;
    cbn [clickFirst]; [constructor|].
  apply only_bind; [apply only_ClickElement; reflexivity|].
  intros [[|] [e|]] w'; try apply IH.
  repeat constructor.
Qed.

Lemma only_confirmPurchase (w : W) :
  only isPurchaseWork (events (confirmPurchase w)).
Proof.
  unfold confirmPurchase.
  apply only_bind; [repeat constructor|]. intros _ w1.
  apply only_bind; [apply only_clickFirst|]. intros [|] w2; constructor.
Qed.

Lemma only_paymentChecks left (w : W) :
  only isPurchaseWork (events (paymentChecks left w)).
Proof.
  revert w; induction left as [|left IH]; intro w;
    cbn [paymentChecks]; [constructor|].
  apply only_bind; [repeat constructor|]. intros _ w1.
  apply only_bind; [apply only_ElementExists; reflexivity|].
  intros [[|] [e|]] w'; try apply IH.
  repeat constructor.
Qed.

Lemma only_handlePayment (w : W) :
  only isPurchaseWork (events (handlePayment w)).
Proof.
  unfold handlePayment.
  apply only_bind; [repeat constructor|]. intros _ w1.
  apply only_bind; [repeat constructor|]. intros _ w2.
  apply only_bind; [repeat constructor|]. intros _ w3.
  apply only_paymentChecks.
Qed.

(** purchaseTicket writes its opening line first and then only does the
    work of a purchase. *)
Lemma purchaseTicket_events concert (w : W) :
  exists work,
    events (purchaseTicket concert w) = EvLog LogPurchaseStart :: work
    /\ only isPurchaseWork work.
Proof.
  unfold purchaseTicket. rewrite bind_events.
  cbn [logLine emit events result final fst snd app].
  eexists; split; [reflexivity|].
  apply only_bind; [apply only_selectSeats|]. intros [e|] w1; [constructor|].
  apply only_bind; [apply only_confirmPurchase|]. intros [e|] w2; [constructor|].
  apply only_bind; [apply only_handlePayment|]. intros [e|] w3; repeat constructor.
Qed.

Lemma only_purchaseTicket concert (w : W) :
  only isLoopEvent (events (purchaseTicket concert w)).
Proof.
  destruct (purchaseTicket_events concert w) as (work & -> & Hwork).
  constructor; [reflexivity|].
  eapply only_weaken; [|exact Hwork].
  intros [[]| | | | | | | | |] He; try discriminate He; reflexivity.
Qed.

End Alphabets.

(* ================================================================== *)
(** ** The poll loop *)

Section PollLoop.
Context {W : Type} {D : Driver W}.
Import Grabber Browser Models.

Lemma selected_events (w : W) :
  events (selected w) = [EvSelect (result (selected w))].
Proof. reflexivity. Qed.


Lemma selected_cancelled_idle (w : W) :
  ctxDone (awaitSelect w) = true ->
  tickPending (awaitSelect w) = false ->
  result (selected w) = CaseDone.
Proof.
  intros Hc Ht. unfold selected, selectDoneOrTick, result; cbn.
  rewrite Hc, Ht. reflexivity.
Qed.

Lemma polled_err_nil (w : W) : result (polled w) = (fst (result (polled w)), None).
Proof.
  unfold polled.
  pose proof (checkSelectors_err_nil availabilitySelectors (final (selected w))) as He.
  unfold checkTicketAvailability.
  destruct (result (checkSelectors availabilitySelectors (final (selected w))))
    as [available err].
  cbn in He |- *. rewrite He. reflexivity.
Qed.

Lemma pollCycle_done next concert (w : W) :
  result (selected w) = CaseDone ->
  pollCycle next concert w
  = (Returned None, final (selected w), [EvSelect CaseDone; EvLog LogStopped]).
Proof.
  intro Hsel. unfold pollCycle. rewrite bind_run.
  fold (selected w). rewrite selected_events, Hsel. reflexivity.
Qed.

Lemma pollCycle_no_tickets next concert (w : W) :
  result (selected w) = CaseTick ->
  fst (result (polled w)) = false ->
  pollCycle next concert w
  = (result (next (final (polled w))),
     final (next (final (polled w))),
     EvSelect CaseTick :: events (polled w)
     ++ EvLog LogNoTickets :: events (next (final (polled w)))).
Proof.
  intros Hsel Hpoll. unfold pollCycle. rewrite bind_run.
  fold (selected w). rewrite selected_events, Hsel.
  rewrite bind_run. fold (polled w).
  rewrite (polled_err_nil w), Hpoll.
  rewrite bind_run. reflexivity.
Qed.

Lemma pollCycle_purchase_failed next concert (w : W) e :
  result (selected w) = CaseTick ->
  fst (result (polled w)) = true ->
  result (purchased concert w) = Some e ->
  pollCycle next concert w
  = (result (next (final (purchased concert w))),
     final (next (final (purchased concert w))),
     EvSelect CaseTick :: events (polled w)
     ++ EvLog LogTicketsFound :: events (purchased concert w)
     ++ EvLog (LogPurchaseFailed e) :: events (next (final (purchased concert w)))).
Proof.
  intros Hsel Hpoll Hbuy. unfold pollCycle. rewrite bind_run.
  fold (selected w). rewrite selected_events, Hsel.
  rewrite bind_run. fold (polled w).
  rewrite (polled_err_nil w), Hpoll.
  rewrite bind_run. cbn [logLine emit result final events fst snd].
  rewrite bind_run. fold (purchased concert w). rewrite Hbuy.
  rewrite bind_run. reflexivity.
Qed.

Lemma pollCycle_purchase_ok next concert (w : W) :
  result (selected w) = CaseTick ->
  fst (result (polled w)) = true ->
  result (purchased concert w) = None ->
  pollCycle next concert w
  = (Returned None,
     final (purchased concert w),
     EvSelect CaseTick :: events (polled w)
     ++ EvLog LogTicketsFound :: events (purchased concert w)
     ++ [EvLog LogPurchaseOk]).
Proof.
  intros Hsel Hpoll Hbuy. unfold pollCycle. rewrite bind_run.
  fold (selected w). rewrite selected_events, Hsel.
  rewrite bind_run. fold (polled w).
  rewrite (polled_err_nil w), Hpoll.
  rewrite bind_run. cbn [logLine emit result final events fst snd].
  rewrite bind_run. fold (purchased concert w). rewrite Hbuy.
  rewrite bind_run. reflexivity.
Qed.

Lemma cycle_cases concert (w : W) : CycleCase concert w.
Proof.
  destruct (result (selected w)) eqn:Hsel; [apply CycleDone; exact Hsel|].
  destruct (fst (result (polled w))) eqn:Hpoll;
    [|apply CycleNoTickets; assumption].
  destruct (result (purchased concert w)) as [e|] eqn:Hbuy.
  - eapply CycleFailed; eassumption.
  - apply CycleBought; assumption.
Qed.

Lemma monitorLoop_outcome fuel concert (w : W) :
  result (monitorLoop fuel concert w) = Running
  \/ result (monitorLoop fuel concert w) = Returned None.
Proof.
  revert w; induction fuel as [|fuel IH]; intro w; [left; reflexivity|].
  cbn [monitorLoop].
  destruct (cycle_cases concert w) as [Hs|Hs Hp|e Hs Hp Hb|Hs Hp Hb].
  - rewrite (pollCycle_done _ _ _ Hs). right; reflexivity.
  - rewrite (pollCycle_no_tickets _ _ _ Hs Hp). apply IH.
  - rewrite (pollCycle_purchase_failed _ _ _ _ Hs Hp Hb). apply IH.
  - rewrite (pollCycle_purchase_ok _ _ _ Hs Hp Hb). right; reflexivity.
Qed.

(** An iteration bound that lets the loop come to an end is as good as any
    larger one. *)
Lemma monitorLoop_more_fuel fuel extra concert (w : W) :
  result (monitorLoop fuel concert w) <> Running ->
  monitorLoop (fuel + extra) concert w = monitorLoop fuel concert w.
Proof.
  revert w; induction fuel as [|fuel IH]; intros w Hend;
    [exfalso; apply Hend; reflexivity|].
  cbn [Nat.add monitorLoop] in *.
  destruct (cycle_cases concert w) as [Hs|Hs Hp|e Hs Hp Hb|Hs Hp Hb].
  - rewrite !(pollCycle_done _ _ _ Hs). reflexivity.
  - rewrite !(pollCycle_no_tickets _ _ _ Hs Hp) in *.
    rewrite IH; [reflexivity | exact Hend].
  - rewrite !(pollCycle_purchase_failed _ _ _ _ Hs Hp Hb) in *.
    rewrite IH; [reflexivity | exact Hend].
  - rewrite !(pollCycle_purchase_ok _ _ _ Hs Hp Hb). reflexivity.
Qed.

End PollLoop.

(* ================================================================== *)
(** ** One purchase attempt *)

Section Purchase.
Context {W : Type} {D : Driver W}.
Import Grabber Browser Models.

Lemma selectSeats_error concert (w : W) e :
  result (selectSeats concert w) = Some e -> e = NoSeatSelectable.
Proof.
  unfold selectSeats. rewrite !bind_result.
  destruct (result (selectPreferred _ _)); [discriminate|].
  rewrite bind_result.
  destruct (result (ClickElement _ _)) as [[|] [e'|]]; cbn; congruence.
Qed.

Lemma confirmPurchase_error (w : W) e :
  result (confirmPurchase w) = Some e -> e = NoBuyButton.
Proof.
  unfold confirmPurchase. rewrite !bind_result.
  destruct (result (clickFirst _ _)); cbn; congruence.
Qed.

(** The payment wait: one second of sleep before each query of the
    payment-success element, at most [left] of them, ended by the first
    query that matches. *)
Lemma paymentChecks_scan left (w : W) :
  exists answers,
    (List.length answers <= left)%nat
    /\ events (paymentChecks left w)
       = flat_map (fun a => [EvSleep (1 * Time.Second);
                              EvEvaluate ".payment-success" (fst a) (snd a)])
                  answers
         ++ (if existsb matched answers then [EvLog LogPaymentOk] else [])
    /\ result (paymentChecks left w)
       = (if existsb matched answers then None else Some PaymentTimeout)
    /\ forallb (fun a => negb (matched a)) (removelast answers) = true
    /\ (existsb matched answers = false -> List.length answers = left).
Proof.
  revert w; induction left as [|left IH]; intro w; cbn [paymentChecks].
  - exists []; repeat split; auto.
  - rewrite bind_result, bind_events.
    cbn [sleep result final events fst snd].
    rewrite bind_result, bind_events, ElementExists_run.
    cbn [result final events fst snd].
    destruct (runEvaluate (existsScript ".payment-success") (sleepFor (1 * Time.Second) w))
      as [[found r] w1]; cbn [fst snd].
    destruct (matched (found, r)) eqn:Hm.
    + destruct found; [|discriminate Hm]. destruct r; [discriminate Hm|].
      exists [(true, None)].
      split; [cbn; lia|]. split; [reflexivity|]. split; [reflexivity|].
      split; [reflexivity|]. cbn. discriminate.
    + destruct (IH w1) as (answers & Hlen & Hev & Hres & Hpre & Hall).
      exists ((found, r) :: answers).
      assert (Hgo : forall A (x y : A),
                 match r with
                 | Some _ => y
                 | None => if found then x else y
                 end = y).
      { intros A x y. destruct r; [reflexivity|].
        destruct found; [discriminate Hm | reflexivity]. }
      split; [cbn; lia|].
      split.
      { cbn [flat_map existsb app]. rewrite Hm. cbn [orb fst snd].
        rewrite <- Hev. do 2 f_equal.
        destruct r; [reflexivity|]. destruct found; [discriminate Hm|reflexivity]. }
      split.
      { cbn [existsb]. rewrite Hm. cbn [orb]. rewrite <- Hres.
        destruct r; [reflexivity|]. destruct found; [discriminate Hm|reflexivity]. }
      split.
      { destruct answers as [|a answers']; [reflexivity|].
        change (removelast ((found, r) :: a :: answers'))
          with ((found, r) :: removelast (a :: answers')).
        cbn [forallb]. rewrite Hm. exact Hpre. }
      cbn [existsb List.length]. rewrite Hm. cbn [orb].
      intro Hn. rewrite (Hall Hn). reflexivity.
Qed.

Lemma handlePayment_run (w : W) :
  handlePayment w
  = (result (paymentChecks 60 (sleepFor (3 * Time.Second) w)),
     final (paymentChecks 60 (sleepFor (3 * Time.Second) w)),
     EvLog LogPaymentStart :: EvSleep (3 * Time.Second) :: EvLog LogPayManually
     :: events (paymentChecks 60 (sleepFor (3 * Time.Second) w))).
Proof.
  unfold handlePayment.
  generalize (paymentChecks 60) as checks; intro checks.
  rewrite !bind_run. reflexivity.
Qed.

Lemma handlePayment_error (w : W) e :
  result (handlePayment w) = Some e -> e = PaymentTimeout.
Proof.
  rewrite handlePayment_run, result_run.
  destruct (paymentChecks_scan 60 (sleepFor (3 * Time.Second) w))
    as (answers & _ & _ & Hres & _).
  rewrite Hres. destruct (existsb matched answers); congruence.
Qed.

(** The three steps of purchaseTicket and the worlds between them. *)
Lemma purchaseTicket_result concert (w : W) :
  result (purchaseTicket concert w)
  = match result (selectSeats concert w) with
    | Some e => Some (SeatSelectionFailed e)
    | None =>
        let w1 := final (selectSeats concert w) in
        match result (confirmPurchase w1) with
        | Some e => Some (ConfirmFailed e)
        | None =>
            match result (handlePayment (final (confirmPurchase w1))) with
            | Some e => Some (PaymentFailed e)
            | None => None
            end
        end
    end.
Proof.
  unfold purchaseTicket. rewrite bind_result.
  change (final (logLine LogPurchaseStart w)) with w.
  rewrite bind_result.
  destruct (result (selectSeats concert w)) as [e|]; [reflexivity|].
  cbv zeta. rewrite bind_result.
  destruct (result (confirmPurchase _)) as [e|]; [reflexivity|].
  rewrite bind_result.
  destruct (result (handlePayment _)) as [e|]; reflexivity.
Qed.

Lemma purchaseTicket_error concert (w : W) e :
  result (purchaseTicket concert w) = Some e ->
  e = SeatSelectionFailed NoSeatSelectable
  \/ e = ConfirmFailed NoBuyButton
  \/ e = PaymentFailed PaymentTimeout.
Proof.
  rewrite purchaseTicket_result.
  destruct (result (selectSeats concert w)) as [e1|] eqn:H1.
  { apply selectSeats_error in H1. subst e1. intro He. left. congruence. }
  cbv zeta.
  destruct (result (confirmPurchase _)) as [e2|] eqn:H2.
  { apply confirmPurchase_error in H2. subst e2. intro He. right; left. congruence. }
  destruct (result (handlePayment _)) as [e3|] eqn:H3; [|discriminate].
  apply handlePayment_error in H3. subst e3. intro He. right; right. congruence.
Qed.

End Purchase.

(* ================================================================== *)
(** ** Purchases open only after a find *)

Section Guarded.


Lemma only_not_in cls x t : only (isNot cls) t -> cls x = true -> ~ In x t.
Proof.
  intros Ht Hx Hin. unfold only in Ht. rewrite Forall_forall in Ht.
  specialize (Ht x Hin). unfold isNot in Ht. rewrite Hx in Ht. discriminate.
Qed.




End Guarded.

(* ================================================================== *)
(** ** The run as a whole: login, navigation, poll loop *)

Section Run.
Context {W : Type} {D : Driver W}.
Variable platform : float -> Z.
Variable config : Models.Config.
Import Grabber Browser Models.

Lemma Navigate_run url (w : W) :
  Navigate url w
  = (fst (runNavigate url w), snd (runNavigate url w),
     [EvLog (LogNavigateTo url); EvNavigate url (fst (runNavigate url w))]).
Proof.
  unfold Navigate. rewrite bind_run.
  cbn [logLine emit result final events fst snd app].
  destruct (runNavigate url w) as [r w1]. reflexivity.
Qed.

Lemma only_Navigate url (w : W) : only isLoginEvent (events (Navigate url w)).
Proof. rewrite Navigate_run. repeat constructor. Qed.

Lemma only_loginWith site userField passField (w : W) :
  only isLoginEvent (events (loginWith config site userField passField w)).
Proof.
  unfold loginWith.
  apply only_bind; [apply only_Navigate|]. intros [e|] w1; [constructor|].
  apply only_bind.
  { unfold FillForm. apply only_bind; [repeat constructor|]. intros _ w2.
    unfold events. destruct (runSetValues _ w2) as [r w3]. repeat constructor. }
  intros [e|] w2; [constructor|].
  apply only_bind.
  { unfold SubmitForm. apply only_bind; [repeat constructor|]. intros _ w3.
    unfold events. destruct (runClickSubmit w3) as [r w4]. repeat constructor. }
  intros [e|] w3; repeat constructor.
Qed.

Lemma only_login (w : W) : only isLoginEvent (events (login config w)).
Proof.
  unfold login. apply only_bind; [repeat constructor|]. intros _ w1.
  unfold loginInterpark, loginYes24, loginMelon.
  repeat match goal with
         | |- context [if ?b then _ else _] => destruct b
         end; try apply only_loginWith.
  constructor.
Qed.

(** An unsupported site fails the login before any page operation. *)
Lemma login_unsupported (w : W) :
  let site := DefaultSite (Ticketing config) in
  String.eqb site "interpark" = false ->
  String.eqb site "yes24" = false ->
  String.eqb site "melon" = false ->
  login config w = (Some (UnsupportedSite site), w, [EvLog LogLoggingIn]).
Proof.
  intros site H1 H2 H3. unfold login. rewrite bind_run.
  fold site. rewrite H1, H2, H3. reflexivity.
Qed.

Lemma navigateToConcert_run concert (w : W) :
  navigateToConcert concert w
  = match fst (runNavigate (URL concert) w) with
    | Some e =>
        (Some e, snd (runNavigate (URL concert) w),
         [EvLog (LogEnteringConcert (URL concert));
          EvLog (LogNavigateTo (URL concert));
          EvNavigate (URL concert) (Some e)])
    | None =>
        (None, sleepFor (2 * Time.Second) (snd (runNavigate (URL concert) w)),
         [EvLog (LogEnteringConcert (URL concert));
          EvLog (LogNavigateTo (URL concert));
          EvNavigate (URL concert) None;
          EvSleep (2 * Time.Second);
          EvLog LogEnteredConcert])
    end.
Proof.
  unfold navigateToConcert. rewrite bind_run.
  cbn [logLine emit result final events fst snd app].
  rewrite (bind_run (Navigate (URL concert))).
  rewrite Navigate_run, !result_run, !final_run, !events_run.
  destruct (fst (runNavigate (URL concert) w)) as [e|]; [reflexivity|].
  rewrite !bind_run. reflexivity.
Qed.

Lemma only_navigateToConcert concert (w : W) :
  only isSetupEvent (events (navigateToConcert concert w)).
Proof.
  rewrite navigateToConcert_run.
  destruct (fst (runNavigate (URL concert) w)); repeat constructor.
Qed.

Lemma monitorTickets_run fuel concert (w : W) :
  let d := refreshInterval platform config in
  let loop := monitorLoop fuel concert (startTicker d w) in
  monitorTickets platform config fuel concert w
  = if Time.tickerPanics d then (Panicked, w, [EvLog LogMonitorStart])
    else match result loop with
         | Running =>
             (Running, final loop,
              EvLog LogMonitorStart :: EvNewTicker d :: events loop)
         | out =>
             (out, stopTicker (final loop),
              EvLog LogMonitorStart :: EvNewTicker d :: events loop
              ++ [EvTickerStop])
         end.
Proof.
  intros d loop. unfold monitorTickets. fold d. rewrite bind_run.
  cbn [logLine emit result final events fst snd app].
  destruct (Time.tickerPanics d); [reflexivity|].
  rewrite bind_run, result_run, final_run, events_run.
  rewrite bind_run. fold loop.
  destruct (result loop); rewrite ?bind_run; cbn [app];
    rewrite ?app_nil_r; reflexivity.
Qed.

Lemma Start_run fuel concert (w : W) :
  let l := login config w in
  let n := navigateToConcert concert (final l) in
  let m := monitorTickets platform config fuel concert (final n) in
  Start platform config fuel concert w
  = match result l with
    | Some e =>
        (Returned (Some (LoginFailed e)), final l,
         EvLog (LogStart (Name concert)) :: events l)
    | None =>
        match result n with
        | Some e =>
            (Returned (Some (NavigationFailed e)), final n,
             EvLog (LogStart (Name concert)) :: events l ++ events n)
        | None =>
            (result m, final m,
             EvLog (LogStart (Name concert)) :: events l ++ events n ++ events m)
        end
    end.
Proof.
  intros l n m. unfold Start. rewrite bind_run.
  cbn [logLine emit result final events fst snd app].
  rewrite bind_run. fold l.
  destruct (result l) as [e|]; [rewrite app_nil_r; reflexivity|].
  rewrite bind_run. fold n.
  destruct (result n) as [e|]; [rewrite app_nil_r; reflexivity|].
  fold m. rewrite <- run_eta_parts. reflexivity.
Qed.

End Run.

(* ================================================================== *)
(** ** No purchase without a find *)

Section NoSpontaneousPurchase.
Context {W : Type} {D : Driver W}.
Import Grabber Browser Models.









Lemma login_is_setup t : only isLoginEvent t -> only isSetupEvent t.
Proof.
  apply only_weaken. intros [[]| | | | | | | | |] He; try discriminate He; reflexivity.
Qed.




End NoSpontaneousPurchase.

(* ================================================================== *)
(** ** Statements about whole runs *)

Section WholeRun.
Context {W : Type} {D : Driver W}.
Variable platform : float -> Z.
Variable config : Models.Config.
Import Grabber Browser Models.

Lemma monitorTickets_events fuel concert (w : W) :
  let d := refreshInterval platform config in
  events (monitorTickets platform config fuel concert w) = [EvLog LogMonitorStart]
  \/ exists tail,
      events (monitorTickets platform config fuel concert w)
      = [EvLog LogMonitorStart; EvNewTicker d]
        ++ events (monitorLoop fuel concert (startTicker d w)) ++ tail
      /\ (tail = [] \/ tail = [EvTickerStop]).
Proof.
  intro d. rewrite monitorTickets_run. fold d.
  destruct (Time.tickerPanics d); [left; reflexivity|]. right.
  destruct (result (monitorLoop fuel concert (startTicker d w)));
    rewrite events_run.
  - exists [EvTickerStop]. split; [reflexivity | right; reflexivity].
  - exists [EvTickerStop]. split; [reflexivity | right; reflexivity].
  - exists []. split; [rewrite app_nil_r; reflexivity | left; reflexivity].
Qed.






End WholeRun.

(* ================================================================== *)
(** ** Login and navigation failures *)

Section Setup.
Context {W : Type} {D : Driver W}.
Variable platform : float -> Z.
Variable config : Models.Config.
Import Grabber Browser Models.

Lemma count_app cls a b : count cls (a ++ b) = (count cls a + count cls b)%nat.
Proof. unfold count. rewrite filter_app, length_app. reflexivity. Qed.

Lemma count_none cls t : only (isNot cls) t -> count cls t = 0%nat.
Proof.
  unfold count, only, isNot. induction 1 as [|e t He Ht IH]; [reflexivity|].
  cbn [filter]. destruct (cls e); [discriminate He | exact IH].
Qed.

Lemma only_FillForm cls fields (w : W) :
  cls (EvLog LogFillForm) = true ->
  (forall r, cls (EvSetValues fields r) = true) ->
  only cls (events (FillForm fields w)).
Proof.
  intros Hl Hc. unfold FillForm. apply only_bind; [repeat constructor; exact Hl|].
  intros _ w1. unfold events. destruct (runSetValues fields w1) as [r w2].
  repeat constructor. apply Hc.
Qed.

Lemma only_SubmitForm cls (w : W) :
  cls (EvLog LogSubmitForm) = true ->
  (forall r, cls (EvClickSubmit r) = true) ->
  only cls (events (SubmitForm w)).
Proof.
  intros Hl Hc. unfold SubmitForm. apply only_bind; [repeat constructor; exact Hl|].
  intros _ w1. unfold events. destruct (runClickSubmit w1) as [r w2].
  repeat constructor. apply Hc.
Qed.

Lemma loginWith_one_navigation site userField passField (w : W) :
  count isNavigation (events (loginWith config site userField passField w)) = 1%nat.
Proof.
  unfold loginWith. rewrite bind_events, Navigate_run.
  rewrite !result_run, !final_run, !events_run, count_app.
  change (count isNavigation [_; _]) with 1%nat.
  rewrite count_none; [reflexivity|].
  destruct (fst (runNavigate _ w)) as [e|]; [constructor|].
  apply only_bind; [apply only_FillForm; reflexivity|].
  intros [e|] w1; [constructor|].
  apply only_bind; [apply only_SubmitForm; reflexivity|].
  intros [e|] w2; repeat constructor.
Qed.

Lemma login_one_navigation (w : W) :
  (count isNavigation (events (login config w)) <= 1)%nat.
Proof.
  unfold login. rewrite bind_events, count_app.
  change (count isNavigation (events (logLine LogLoggingIn w))) with 0%nat.
  unfold loginInterpark, loginYes24, loginMelon.
  repeat match goal with
         | |- context [if ?b then _ else _] => destruct b
         end; rewrite ?loginWith_one_navigation; cbn; lia.
Qed.

(** C5.  A login that fails ends the run then and there with the login
    error: the run did the one login attempt and nothing after it, neither
    the navigation to the concert page nor the poll loop.  A site other than
    the three supported ones makes the login fail before any page
    operation. *)
Theorem login_failure_ends_run fuel concert (w : W) :
  (String.eqb (DefaultSite (Ticketing config)) "interpark" = false ->
   String.eqb (DefaultSite (Ticketing config)) "yes24" = false ->
   String.eqb (DefaultSite (Ticketing config)) "melon" = false ->
   login config w
   = (Some (UnsupportedSite (DefaultSite (Ticketing config))), w,
      [EvLog LogLoggingIn]))
  /\ (forall e,
        result (login config w) = Some e ->
        Start platform config fuel concert w
        = (Returned (Some (LoginFailed e)), final (login config w),
           EvLog (LogStart (Name concert)) :: events (login config w))
        /\ only isLoginEvent (events (login config w))
        /\ (count isNavigation (events (login config w)) <= 1)%nat).
Proof.
  split.
  - apply login_unsupported.
  - intros e He. rewrite Start_run, He.
    split; [reflexivity|]. split; [apply only_login | apply login_one_navigation].
Qed.

(** C2, as the code has it.  A failed navigation to the concert page is not
    tried again: navigateToConcert returns the error of its single attempt
    without any wait, and the run ends with it at once, whatever the
    configured retry count and delay. *)
Theorem navigation_failure_ends_run fuel concert (w : W) e :
  result (login config w) = None ->
  fst (runNavigate (URL concert) (final (login config w))) = Some e ->
  navigateToConcert concert (final (login config w))
  = (Some e, snd (runNavigate (URL concert) (final (login config w))),
     [EvLog (LogEnteringConcert (URL concert));
      EvLog (LogNavigateTo (URL concert));
      EvNavigate (URL concert) (Some e)])
  /\ Start platform config fuel concert w
     = (Returned (Some (NavigationFailed e)),
        snd (runNavigate (URL concert) (final (login config w))),
        EvLog (LogStart (Name concert)) :: events (login config w)
        ++ [EvLog (LogEnteringConcert (URL concert));
            EvLog (LogNavigateTo (URL concert));
            EvNavigate (URL concert) (Some e)]).
Proof.
  intros Hlogin Hnav.
  assert (Hrun : navigateToConcert concert (final (login config w))
                 = (Some e, snd (runNavigate (URL concert) (final (login config w))),
                    [EvLog (LogEnteringConcert (URL concert));
                     EvLog (LogNavigateTo (URL concert));
                     EvNavigate (URL concert) (Some e)])).
  { rewrite navigateToConcert_run, Hnav. reflexivity. }
  split; [exact Hrun|].
  rewrite Start_run, Hlogin, Hrun. reflexivity.
Qed.

End Setup.

(* ================================================================== *)
(** ** Failures inside the poll loop *)

Section LoopFailures.
Context {W : Type} {D : Driver W}.
Import Grabber Browser Models.

Lemma monitorLoop_failed_purchase fuel concert (w : W) e :
  result (selected w) = CaseTick ->
  fst (result (polled w)) = true ->
  result (purchased concert w) = Some e ->
  monitorLoop (S fuel) concert w
  = (result (monitorLoop fuel concert (final (purchased concert w))),
     final (monitorLoop fuel concert (final (purchased concert w))),
     EvSelect CaseTick :: events (polled w)
     ++ EvLog LogTicketsFound :: events (purchased concert w)
     ++ EvLog (LogPurchaseFailed e)
        :: events (monitorLoop fuel concert (final (purchased concert w)))).
Proof. intros Hs Hp Hb. apply pollCycle_purchase_failed; assumption. Qed.

Lemma monitorLoop_never_fails fuel concert (w : W) e :
  result (monitorLoop fuel concert w) <> Returned (Some e).
Proof.
  destruct (monitorLoop_outcome fuel concert w) as [-> | ->]; discriminate.
Qed.

Lemma only_monitorLoop fuel concert (w : W) :
  only isLoopEvent (events (monitorLoop fuel concert w)).
Proof.
  revert w; induction fuel as [|fuel IH]; intro w; [constructor|].
  cbn [monitorLoop].
  assert (Hpoll : only isLoopEvent (events (polled w))).
  { eapply only_weaken; [|apply only_checkSelectors].
    intros [] He; try discriminate He; reflexivity. }
  destruct (cycle_cases concert w) as [Hs|Hs Hp|e Hs Hp Hb|Hs Hp Hb].
  - rewrite (pollCycle_done _ _ _ Hs), events_run. repeat constructor.
  - rewrite (pollCycle_no_tickets _ _ _ Hs Hp), events_run.
    constructor; [reflexivity|]. apply Forall_app. split; [exact Hpoll|].
    constructor; [reflexivity | apply IH].
  - rewrite (pollCycle_purchase_failed _ _ _ _ Hs Hp Hb), events_run.
    constructor; [reflexivity|]. apply Forall_app. split; [exact Hpoll|].
    constructor; [reflexivity|]. apply Forall_app.
    split; [apply only_purchaseTicket|].
    constructor; [reflexivity | apply IH].
  - rewrite (pollCycle_purchase_ok _ _ _ Hs Hp Hb), events_run.
    constructor; [reflexivity|]. apply Forall_app. split; [exact Hpoll|].
    constructor; [reflexivity|]. apply Forall_app.
    split; [apply only_purchaseTicket | repeat constructor].
Qed.

(** C9.  The error result of checkTicketAvailability is nil in every world,
    whatever the element queries answer, so the poll loop never takes the
    branch that logs a failed check. *)
Theorem checkTicketAvailability_never_errors (w : W) :
  snd (result (checkTicketAvailability w)) = None
  /\ forall fuel concert,
       only (isNot isCheckFailed) (events (monitorLoop fuel concert w)).
Proof.
  split; [apply checkSelectors_err_nil|].
  intros fuel concert. eapply only_weaken; [|apply only_monitorLoop].
  intros [[]| | | | | | | | |] He; try discriminate He; reflexivity.
Qed.

(** C8.  A purchase that fails in seat selection or in the confirmation does
    not end the run: the loop logs the failure and goes on with its next
    iteration, and it never returns an error. *)
Theorem purchase_failure_returns_to_polling fuel concert (w : W) :
  result (selected w) = CaseTick ->
  fst (result (polled w)) = true ->
  (result (selectSeats concert (final (polled w))) <> None ->
   result (purchased concert w) = Some (SeatSelectionFailed NoSeatSelectable))
  /\ (result (selectSeats concert (final (polled w))) = None ->
      result (confirmPurchase (final (selectSeats concert (final (polled w)))))
      <> None ->
      result (purchased concert w) = Some (ConfirmFailed NoBuyButton))
  /\ (forall e,
        result (purchased concert w) = Some e ->
        e = SeatSelectionFailed NoSeatSelectable \/ e = ConfirmFailed NoBuyButton ->
        monitorLoop (S fuel) concert w
        = (result (monitorLoop fuel concert (final (purchased concert w))),
           final (monitorLoop fuel concert (final (purchased concert w))),
           EvSelect CaseTick :: events (polled w)
           ++ EvLog LogTicketsFound :: events (purchased concert w)
           ++ EvLog (LogPurchaseFailed e)
              :: events (monitorLoop fuel concert (final (purchased concert w)))))
  /\ (forall e, result (monitorLoop (S fuel) concert w) <> Returned (Some e)).
Proof.
  intros Hs Hp. unfold purchased. rewrite purchaseTicket_result.
  split; [|split; [|split]].
  - intro Hseat.
    destruct (result (selectSeats concert (final (polled w)))) as [e|] eqn:He;
      [|congruence].
    apply selectSeats_error in He. subst e. reflexivity.
  - intros Hseat Hconfirm. rewrite Hseat. cbv zeta.
    destruct (result (confirmPurchase _)) as [e|] eqn:He; [|congruence].
    apply confirmPurchase_error in He. subst e. reflexivity.
  - intros e Hb _. rewrite <- purchaseTicket_result in Hb.
    apply monitorLoop_failed_purchase; assumption.
  - intro e. apply monitorLoop_never_fails.
Qed.

Lemma matched_answer_is_seen answers :
  existsb matched answers = true ->
  In (EvEvaluate ".payment-success" true None)
     (flat_map (fun a => [EvSleep (1 * Time.Second);
                          EvEvaluate ".payment-success" (fst a) (snd a)])
               answers).
Proof.
  induction answers as [|[found r] answers IH]; [discriminate|].
  cbn [existsb flat_map app fst snd]. intro Hm.
  destruct (matched (found, r)) eqn:Ha.
  - destruct found; [|discriminate Ha]. destruct r; [discriminate Ha|].
    right. left. reflexivity.
  - right. right. apply IH. exact Hm.
Qed.

(** C1, as the code has it.  A payment wait in which no check sees the
    payment-success element makes its sixty checks, one second apart, and
    returns the timeout, and purchaseTicket fails with it; the poll loop logs
    that failure like any other and goes on with its next iteration, where a
    new find starts seat selection, confirmation and payment again.  The
    loop does not return the timeout. *)
Theorem payment_timeout_resumes_polling fuel concert (w : W) :
  let w1 := final (polled w) in
  let w2 := final (selectSeats concert w1) in
  let w3 := final (confirmPurchase w2) in
  result (selected w) = CaseTick ->
  fst (result (polled w)) = true ->
  result (selectSeats concert w1) = None ->
  result (confirmPurchase w2) = None ->
  only (isNot isPaymentSuccess) (events (handlePayment w3)) ->
  (exists answers,
      List.length answers = 60%nat
      /\ existsb matched answers = false
      /\ handlePayment w3
         = (Some PaymentTimeout,
            final (handlePayment w3),
            [EvLog LogPaymentStart; EvSleep (3 * Time.Second); EvLog LogPayManually]
            ++ flat_map (fun a => [EvSleep (1 * Time.Second);
                                   EvEvaluate ".payment-success" (fst a) (snd a)])
                        answers))
  /\ result (purchased concert w) = Some (PaymentFailed PaymentTimeout)
  /\ monitorLoop (S fuel) concert w
     = (result (monitorLoop fuel concert (final (purchased concert w))),
        final (monitorLoop fuel concert (final (purchased concert w))),
        EvSelect CaseTick :: events (polled w)
        ++ EvLog LogTicketsFound :: events (purchased concert w)
        ++ EvLog (LogPurchaseFailed (PaymentFailed PaymentTimeout))
           :: events (monitorLoop fuel concert (final (purchased concert w))))
  /\ (forall e, result (monitorLoop (S fuel) concert w) <> Returned (Some e)).
Proof.
  intros w1 w2 w3 Hs Hp Hseat Hconfirm Hnone.
  assert (Hpay : exists answers,
             List.length answers = 60%nat
             /\ existsb matched answers = false
             /\ handlePayment w3
                = (Some PaymentTimeout,
                   final (handlePayment w3),
                   [EvLog LogPaymentStart; EvSleep (3 * Time.Second);
                    EvLog LogPayManually]
                   ++ flat_map (fun a => [EvSleep (1 * Time.Second);
                                          EvEvaluate ".payment-success"
                                                     (fst a) (snd a)])
                               answers)).
  { rewrite handlePayment_run, events_run in Hnone.
    rewrite handlePayment_run, final_run.
    destruct (paymentChecks_scan 60 (sleepFor (3 * Time.Second) w3))
      as (answers & Hlen & Hev & Hres & _ & Hall).
    destruct (existsb matched answers) eqn:Hm.
    - exfalso. rewrite Hev in Hnone.
      apply (only_not_in isPaymentSuccess
               (EvEvaluate ".payment-success" true None) _ Hnone eq_refl).
      right. right. right. apply in_or_app. left.
      apply matched_answer_is_seen. exact Hm.
    - exists answers. split; [apply Hall; reflexivity|]. split; [exact Hm|].
      rewrite Hres, Hev, app_nil_r. reflexivity. }
  assert (Hb : result (purchased concert w) = Some (PaymentFailed PaymentTimeout)).
  { unfold purchased. rewrite purchaseTicket_result. fold w1.
    rewrite Hseat. cbv zeta. fold w2. rewrite Hconfirm. fold w3.
    destruct Hpay as (answers & _ & _ & ->). rewrite result_run. reflexivity. }
  split; [exact Hpay|]. split; [exact Hb|]. split.
  - apply monitorLoop_failed_purchase; assumption.
  - intro e. apply monitorLoop_never_fails.
Qed.

End LoopFailures.

(* ================================================================== *)
(** ** The ticker of the poll loop *)

Section Ticker.
Context {W : Type} {D : Driver W}.
Variable platform : float -> Z.
Variable config : Models.Config.
Import Grabber Browser Models.

Lemma wrap64_small z : - 2 ^ 63 <= z < 2 ^ 63 -> Time.wrap64 z = z.
Proof.
  intro Hz. unfold Time.wrap64. rewrite Z.mod_small; lia.
Qed.

Lemma monitorTickets_panics_iff fuel concert (w : W) :
  result (monitorTickets platform config fuel concert w) = Panicked
  <-> refreshInterval platform config <= 0.
Proof.
  rewrite monitorTickets_run. unfold Time.tickerPanics.
  destruct (Z.leb_spec (refreshInterval platform config) 0) as [Hd|Hd].
  - split; [intros _; exact Hd | reflexivity].
  - split; [|lia].
    destruct (monitorLoop_outcome fuel concert
                (startTicker (refreshInterval platform config) w)) as [-> | ->];
      rewrite result_run; discriminate.
Qed.

(** C10, as the code has it.  monitorTickets builds its ticker from the
    whole milliseconds [n] of RefreshInterval * 1000, as the int64 number of
    nanoseconds n * 1000000 with wrap-around, and panics instead of polling
    exactly when that number is not positive, having written its opening
    log line and nothing else.  It does so for every [n] from
    -9223372036854 to 0 and for no [n] from 1 to 9223372036854.  Outside
    the two ranges the multiplication wraps around and the sign of the
    interval no longer decides: an interval of -17179869184 seconds has a
    positive number of nanoseconds and does not panic. *)
Theorem ticker_panics_iff_duration_not_positive fuel concert (w : W) :
  let n := Time.durationOfFloat platform
             (PrimFloat.mul (RefreshInterval (Ticketing config)) 1000%float) in
  (result (monitorTickets platform config fuel concert w) = Panicked
   <-> Time.wrap64 (n * Time.Millisecond) <= 0)
  /\ (result (monitorTickets platform config fuel concert w) = Panicked ->
      events (monitorTickets platform config fuel concert w)
      = [EvLog LogMonitorStart])
  /\ (- 9223372036854 <= n <= 0 ->
      result (monitorTickets platform config fuel concert w) = Panicked)
  /\ (1 <= n <= 9223372036854 ->
      result (monitorTickets platform config fuel concert w) <> Panicked)
  /\ (RefreshInterval (Ticketing config) = (-17179869184)%float ->
      n = - 17179869184000
      /\ Time.wrap64 (n * Time.Millisecond) = 1266874889709551616
      /\ result (monitorTickets platform config fuel concert w) <> Panicked).
Proof.
  intro n.
  assert (Hri : refreshInterval platform config
                = Time.wrap64 (n * Time.Millisecond)) by reflexivity.
  split; [|split; [|split; [|split]]].
  - rewrite monitorTickets_panics_iff, Hri. reflexivity.
  - intro Hp. apply monitorTickets_panics_iff in Hp.
    rewrite monitorTickets_run. unfold Time.tickerPanics.
    destruct (Z.leb_spec (refreshInterval platform config) 0); [reflexivity|lia].
  - intro Hn. apply monitorTickets_panics_iff. rewrite Hri.
    unfold Time.Millisecond. rewrite wrap64_small; lia.
  - intros Hn Hp. apply monitorTickets_panics_iff in Hp. rewrite Hri in Hp.
    unfold Time.Millisecond in Hp. rewrite wrap64_small in Hp; lia.
  - intro Hfar.
    assert (Hn : n = - 17179869184000)
      by (unfold n; rewrite Hfar; vm_compute; reflexivity).
    assert (Hd : Time.wrap64 (n * Time.Millisecond) = 1266874889709551616)
      by (rewrite Hn; vm_compute; reflexivity).
    split; [exact Hn|]. split; [exact Hd|].
    intro Hp. apply monitorTickets_panics_iff in Hp.
    rewrite Hri, Hd in Hp. lia.
Qed.

End Ticker.

(* ================================================================== *)
(** ** Scenarios *)

Section Scenarios.
Import Grabber Browser Models Script.

Ltac find_in := repeat first [left; reflexivity | right].

(** A run that goes through: tickets on sale at the first poll, the VIP seat
    and the purchase button clickable, payment seen at the second check. *)
Example purchase_goes_through :
  Start (D := driver (latePayment onSale 17)) amd64 (site "interpark") 1
        (show ["VIP"]) 0%nat
  = (Returned None, 19%nat,
     [EvLog (LogStart "Seoul Night"); EvLog LogLoggingIn;
      EvLog (LogNavigateTo "https://tickets.interpark.com/login");
      EvNavigate "https://tickets.interpark.com/login" None;
      EvLog LogFillForm;
      EvSetValues [("username", "fan"); ("password", "secret")] None;
      EvLog LogSubmitForm; EvClickSubmit None; EvLog (LogLoginOk "interpark");
      EvLog (LogEnteringConcert "https://tickets.interpark.com/show/1");
      EvLog (LogNavigateTo "https://tickets.interpark.com/show/1");
      EvNavigate "https://tickets.interpark.com/show/1" None;
      EvSleep (2 * Time.Second); EvLog LogEnteredConcert;
      EvLog LogMonitorStart; EvNewTicker (500 * Time.Millisecond);
      EvSelect CaseTick; EvEvaluate ".ticket-available" true None;
      EvLog LogTicketsFound; EvLog LogPurchaseStart; EvLog LogSelectingSeats;
      EvEvaluate "[data-seat-type='VIP']" true None;
      EvClick "[data-seat-type='VIP']" None; EvLog (LogSeatTypeChosen "VIP");
      EvLog LogConfirming; EvEvaluate ".btn-purchase" true None;
      EvClick ".btn-purchase" None; EvLog LogBuyClicked;
      EvLog LogPaymentStart; EvSleep (3 * Time.Second); EvLog LogPayManually;
      EvSleep (1 * Time.Second); EvEvaluate ".payment-success" false None;
      EvSleep (1 * Time.Second); EvEvaluate ".payment-success" true None;
      EvLog LogPaymentOk; EvLog LogPurchaseDone; EvLog LogPurchaseOk;
      EvTickerStop]).
Proof. vm_compute. reflexivity. Qed.

(** C1, the claim as stated fails.  Tickets are on sale and the
    payment-success element shows up only late.  The first payment wait
    times out; the run does not end there but polls again, selects the seat,
    confirms and waits for payment a second time, and ends without error. *)
Lemma payment_timeout_is_retried :
  let run := Start (D := driver (latePayment onSale 150)) amd64
               (site "interpark") 2 (show ["VIP"]) 0%nat in
  let later := afterFirst isPaymentTimeout (events run) in
  result run = Returned None
  /\ count isPaymentTimeout (events run) = 1%nat
  /\ In (EvLog LogPurchaseStart) later
  /\ In (EvClick "[data-seat-type='VIP']" None) later
  /\ In (EvClick ".btn-purchase" None) later
  /\ In (EvLog LogPaymentStart) later
  /\ In (EvLog LogPaymentOk) later.
Proof.
  intros run later. vm_compute.
  repeat split; find_in.
Qed.

Lemma payment_timeout_resumes_polling_witness :
  only (isNot isPaymentSuccess)
       (events (handlePayment (D := driver (page onSale)) 7%nat))
  /\ result (purchased (D := driver (page onSale)) (show ["VIP"]) 0%nat)
     = Some (PaymentFailed PaymentTimeout)
  /\ forall e,
       result (monitorLoop (D := driver (page onSale)) 1 (show ["VIP"]) 0%nat)
       <> Returned (Some e).
Proof.
  assert (H1 : result (selected (D := driver (page onSale)) 0%nat) = CaseTick)
    by (vm_compute; reflexivity).
  assert (H2 : fst (result (polled (D := driver (page onSale)) 0%nat)) = true)
    by (vm_compute; reflexivity).
  assert (H3 : only (isNot isPaymentSuccess)
                 (events (handlePayment (D := driver (page onSale)) 7%nat)))
    by (vm_compute; repeat constructor).
  destruct (payment_timeout_resumes_polling
              (D := driver (page onSale)) 0 (show ["VIP"]) 0%nat
              H1 H2 eq_refl eq_refl H3) as (_ & Hb & _ & Hnever).
  split; [exact H3|]. split; [exact Hb | exact Hnever].
Defined.

(** C2, the claim as stated fails.  The navigation to the concert page fails
    once, at its first attempt, and would have succeeded at the next; with a
    configured retry count of three the run still ends with the navigation
    error after that single attempt, without having waited. *)
Lemma navigation_is_not_retried :
  let run := Start (D := driver (flakyNavigation onSale 3)) amd64
               (site "interpark") 2 (show ["VIP"]) 0%nat in
  MaxRetries (Ticketing (site "interpark")) = 3
  /\ result run = Returned (Some (NavigationFailed (DriverError 1)))
  /\ count (isNavigationTo (URL (show ["VIP"]))) (events run) = 1%nat
  /\ count isSleep (events run) = 0%nat
  /\ onNavigate (flakyNavigation onSale 3) (final run) (URL (show ["VIP"])) = None.
Proof.
  intro run. vm_compute. repeat split.
Qed.

Lemma navigation_failure_ends_run_witness :
  result (login (D := driver (flakyNavigation onSale 3)) (site "interpark") 0%nat)
  = None
  /\ result (Start (D := driver (flakyNavigation onSale 3)) amd64
               (site "interpark") 2 (show ["VIP"]) 0%nat)
     = Returned (Some (NavigationFailed (DriverError 1))).
Proof.
  assert (H1 : result (login (D := driver (flakyNavigation onSale 3))
                         (site "interpark") 0%nat) = None)
    by (vm_compute; reflexivity).
  split; [exact H1|].
  rewrite (proj2 (navigation_failure_ends_run
                    (D := driver (flakyNavigation onSale 3)) amd64
                    (site "interpark") 2 (show ["VIP"]) 0%nat (DriverError 1)
                    H1 eq_refl)).
  reflexivity.
Defined.



Lemma login_failure_ends_run_witness :
  Start (D := driver (page onSale)) amd64 (site "ticketlink") 3 (show ["VIP"]) 0%nat
  = (Returned (Some (LoginFailed (UnsupportedSite "ticketlink"))), 0%nat,
     [EvLog (LogStart "Seoul Night"); EvLog LogLoggingIn]).
Proof.
  pose proof (login_failure_ends_run (D := driver (page onSale)) amd64
                (site "ticketlink") 3 (show ["VIP"]) 0%nat) as [Hsite Hfail].
  specialize (Hsite eq_refl eq_refl eq_refl).
  destruct (Hfail (UnsupportedSite "ticketlink")) as [Hrun _].
  - rewrite Hsite. reflexivity.
  - rewrite Hrun, Hsite. reflexivity.
Defined.

(** C7, at the failing input.  The preferred tags are VIP and A, and the page
    holds a seat of each preferred type and a generic seat, every one of
    which [chromedp.Click] can click.  The script that [ElementExists] makes
    for the VIP tag pastes the selector, quotes and all, between the quotes
    of [document.querySelector('...')]: the engine rejects it, and so for
    the tag A.  selectSeats clicks neither preferred seat and takes the
    generic one; on the page without a generic seat it fails with the
    no-seat error although both preferred seats are there. *)
Theorem quoted_seat_selector_is_never_found :
  existsScript (seatTypeSelector "VIP")
  = (lf ++ tab ++ tab
     ++ "document.querySelector('[data-seat-type='VIP']') !== null"
     ++ lf ++ tab)%string
  /\ runClick (Driver := driver (chrome seatsOfAllKinds))
       (seatTypeSelector "VIP") 0%nat = (None, 1%nat)
  /\ runClick (Driver := driver (chrome seatsOfAllKinds))
       (seatTypeSelector "A") 0%nat = (None, 1%nat)
  /\ selectSeats (D := driver (chrome seatsOfAllKinds)) (show ["VIP"; "A"]) 0%nat
     = (None, 4%nat,
        [EvLog LogSelectingSeats;
         EvEvaluate "[data-seat-type='VIP']" false (Some syntaxError);
         EvEvaluate "[data-seat-type='A']" false (Some syntaxError);
         EvEvaluate ".seat-available" true None;
         EvClick ".seat-available" None;
         EvLog LogSeatsDone])
  /\ selectSeats (D := driver (chrome seatsOfBothTypes)) (show ["VIP"; "A"]) 0%nat
     = (Some NoSeatSelectable, 3%nat,
        [EvLog LogSelectingSeats;
         EvEvaluate "[data-seat-type='VIP']" false (Some syntaxError);
         EvEvaluate "[data-seat-type='A']" false (Some syntaxError);
         EvEvaluate ".seat-available" false None]).
Proof.
  repeat split; vm_compute; reflexivity.
Qed.

(** On the [chrome] page this is so for every tag, every content of the page
    and at every step: the selector of a seat type holds a quote. *)
Lemma substring_append (s tail : string) :
  substring 0 (String.length s) (s ++ tail)%string = s.
Proof.
  induction s as [|c s IH]; cbn.
  - destruct tail; reflexivity.
  - rewrite IH. reflexivity.
Qed.

Lemma length_append (s tail : string) :
  String.length (s ++ tail)%string = (String.length s + String.length tail)%nat.
Proof.
  induction s as [|c s IH]; cbn; [reflexivity | rewrite IH; reflexivity].
Qed.

Lemma selectorOf_existsScript selector :
  selectorOf (existsScript selector) = selector.
Proof.
  unfold selectorOf, existsScript.
  change (String.length scriptHead) with 27%nat.
  change (String.length scriptTail) with 13%nat.
  cbn [scriptHead lf tab append String.length substring].
  rewrite length_append.
  change (String.length scriptTail) with 13%nat.
  match goal with
  | |- substring 0 ?k _ = _ => replace k with (String.length selector) by lia
  end.
  apply substring_append.
Qed.

Lemma seatTypeSelector_holds_quote tag :
  holdsQuote (seatTypeSelector tag) = true.
Proof. reflexivity. Qed.

Lemma chrome_never_finds_a_seat_type present tag (n : nat) :
  ElementExists (D := driver (chrome present)) (seatTypeSelector tag) n
  = ((false, Some syntaxError), S n,
     [EvEvaluate (seatTypeSelector tag) false (Some syntaxError)])
  /\ clickable (D := driver (chrome present)) (seatTypeSelector tag) n = false.
Proof.
  assert (Hq : ElementExists (D := driver (chrome present)) (seatTypeSelector tag) n
               = ((false, Some syntaxError), S n,
                  [EvEvaluate (seatTypeSelector tag) false (Some syntaxError)])).
  { unfold ElementExists, runEvaluate, driver, chrome, onEvaluate.
    rewrite selectorOf_existsScript, seatTypeSelector_holds_quote. reflexivity. }
  split; [exact Hq|].
  unfold clickable, ClickElement. rewrite bind_result, Hq. reflexivity.
Qed.

(** A page that reads the selector as it was given clicks the VIP seat: the
    loop of selectSeats is not what keeps the preferred seat from being
    taken. *)
Example selectSeats_with_the_selector_read_as_given :
  selectSeats (D := driver (page seatsOfAllKinds)) (show ["VIP"; "A"]) 0%nat
  = (None, 2%nat,
     [EvLog LogSelectingSeats;
      EvEvaluate "[data-seat-type='VIP']" true None;
      EvClick "[data-seat-type='VIP']" None;
      EvLog (LogSeatTypeChosen "VIP")]).
Proof. vm_compute. reflexivity. Qed.

(** The same on a whole run: the preferred VIP seat is on the page, and the
    purchase that goes through is that of the generic seat. *)
Example purchase_with_parsed_scripts_takes_the_generic_seat :
  let run := Start (D := driver (strict (latePayment onSaleWithGenericSeat 19)))
               amd64 (site "interpark") 1 (show ["VIP"]) 0%nat in
  result run = Returned None
  /\ In (EvEvaluate "[data-seat-type='VIP']" false (Some syntaxError)) (events run)
  /\ In (EvClick ".seat-available" None) (events run)
  /\ ~ In (EvClick "[data-seat-type='VIP']" None) (events run)
  /\ In (EvLog LogPurchaseOk) (events run).
Proof.
  intro run. vm_compute.
  split; [reflexivity|].
  split; [find_in|]. split; [find_in|].
  split; [|find_in].
  intro Hin.
  repeat (destruct Hin as [Heq | Hin]; [discriminate Heq|]).
  exact Hin.
Qed.

(** The runs of the scenarios above do not hang on the VIP seat.  On a page
    that parses the scripts and holds a generic seat, a payment wait that
    times out is followed by a second purchase all the same, and a
    cancellation during the payment wait is sat out for the sixty checks. *)
Example payment_timeout_is_retried_with_parsed_scripts :
  let run := Start (D := driver (strict (latePayment onSaleWithGenericSeat 150)))
               amd64 (site "interpark") 2 (show ["VIP"]) 0%nat in
  let later := afterFirst isPaymentTimeout (events run) in
  result run = Returned None
  /\ count isPaymentTimeout (events run) = 1%nat
  /\ In (EvLog LogPurchaseStart) later
  /\ In (EvClick ".seat-available" None) later
  /\ In (EvClick ".btn-purchase" None) later
  /\ In (EvLog LogPaymentStart) later
  /\ In (EvLog LogPaymentOk) later.
Proof.
  intros run later. vm_compute.
  repeat split; find_in.
Qed.

Example cancellation_ignored_with_parsed_scripts :
  let sc := strict (cancelledFrom onSaleWithGenericSeat 15) in
  let pay := handlePayment (D := driver sc) 14%nat in
  let run := Start (D := driver sc) amd64 (site "interpark") 3 (show ["VIP"]) 0%nat in
  cancelled sc 15 = true
  /\ final (confirmPurchase (D := driver sc) 12%nat) = 14%nat
  /\ result pay = Some PaymentTimeout
  /\ count isQuery (events pay) = 60%nat
  /\ count isSelect (events pay) = 0%nat
  /\ slept (events pay) = 63 * Time.Second
  /\ result run = Returned None
  /\ afterFirst isPaymentTimeout (events run)
     = [EvSelect CaseDone; EvLog LogStopped; EvTickerStop].
Proof.
  intros sc pay run. vm_compute. repeat split.
Qed.

Lemma purchase_failure_returns_to_polling_witness :
  result (selected (D := driver (page noButton)) 0%nat) = CaseTick
  /\ fst (result (polled (D := driver (page noButton)) 0%nat)) = true
  /\ result (purchased (D := driver (page noButton)) (show ["VIP"]) 0%nat)
     = Some (ConfirmFailed NoBuyButton)
  /\ forall e,
       result (monitorLoop (D := driver (page noButton)) 1 (show ["VIP"]) 0%nat)
       <> Returned (Some e).
Proof.
  assert (H1 : result (selected (D := driver (page noButton)) 0%nat) = CaseTick)
    by (vm_compute; reflexivity).
  assert (H2 : fst (result (polled (D := driver (page noButton)) 0%nat)) = true)
    by (vm_compute; reflexivity).
  destruct (purchase_failure_returns_to_polling
              (D := driver (page noButton)) 0 (show ["VIP"]) 0%nat H1 H2)
    as (_ & Hconfirm & _ & Hnever).
  split; [exact H1|]. split; [exact H2|]. split; [|exact Hnever].
  apply Hconfirm; [vm_compute; reflexivity | vm_compute; discriminate].
Defined.

(** C10, the claim as stated fails.  A refresh interval of 2^-10 seconds is
    positive and has no whole millisecond: the ticker is built from zero
    nanoseconds and panics.  A refresh interval of -2^34 seconds is negative
    and its nanoseconds wrap around to a positive int64: no panic. *)
Lemma positive_interval_can_panic :
  PrimFloat.ltb 0%float 0.0009765625%float = true
  /\ refreshInterval amd64 (withInterval 0.0009765625%float) = 0
  /\ result (monitorTickets (D := driver (page soldOut)) amd64
               (withInterval 0.0009765625%float) 3 (show ["VIP"]) 0%nat)
     = Panicked
  /\ PrimFloat.leb (-17179869184)%float 0%float = true
  /\ refreshInterval amd64 (withInterval (-17179869184)%float)
     = 1266874889709551616
  /\ result (monitorTickets (D := driver (page soldOut)) amd64
               (withInterval (-17179869184)%float) 3 (show ["VIP"]) 0%nat)
     = Running.
Proof. vm_compute. repeat split. Qed.

Lemma ticker_panics_iff_duration_not_positive_witness :
  Time.durationOfFloat amd64
    (PrimFloat.mul (RefreshInterval (Ticketing (withInterval 0.5%float))) 1000%float)
  = 500
  /\ result (monitorTickets (D := driver (page soldOut)) amd64
               (withInterval 0.5%float) 3 (show ["VIP"]) 0%nat)
     <> Panicked.
Proof.
  split; [vm_compute; reflexivity|].
  apply (proj1 (proj2 (proj2 (proj2 (ticker_panics_iff_duration_not_positive
                                       (D := driver (page soldOut)) amd64
                                       (withInterval 0.5%float) 3
                                       (show ["VIP"]) 0%nat))))).
  vm_compute. split; discriminate.
Defined.

End Scenarios.

(* ================================================================== *)
(** ** findConcertByID and the choice of the target *)

Section Target.
Import Models Main.

Lemma findConcertByID_none concerts id :
  findConcertByID concerts id = None
  <-> Forall (fun x => ID x <> id) concerts.
Proof.
  induction concerts as [|c rest IH]; cbn [findConcertByID].
  - split; [constructor | reflexivity].
  - destruct (String.eqb_spec (ID c) id) as [Heq|Hne].
    + split; [discriminate|]. intro H. inversion H; subst. contradiction.
    + rewrite IH. split.
      * intro H. constructor; assumption.
      * intro H. inversion H; assumption.
Qed.

Lemma findConcertByID_some concerts id c :
  findConcertByID concerts id = Some c
  <-> exists pre post,
        concerts = pre ++ c :: post
        /\ ID c = id
        /\ Forall (fun x => ID x <> id) pre.
Proof.
  revert c; induction concerts as [|c0 rest IH]; intro c; cbn [findConcertByID].
  - split; [discriminate|]. intros (pre & post & Heq & _).
    destruct pre; discriminate Heq.
  - destruct (String.eqb_spec (ID c0) id) as [Heq|Hne].
    + split.
      * intro H. injection H as <-. exists [], rest. repeat split; auto.
      * intros (pre & post & Hc & Hid & Hpre).
        destruct pre as [|x pre]; cbn in Hc.
        -- injection Hc as -> _. reflexivity.
        -- injection Hc as -> _. inversion Hpre; subst. contradiction.
    + rewrite IH. split.
      * intros (pre & post & -> & Hid & Hpre).
        exists (c0 :: pre), post. repeat split; auto.
      * intros (pre & post & Hc & Hid & Hpre).
        destruct pre as [|x pre]; cbn in Hc.
        -- injection Hc as -> _. contradiction.
        -- injection Hc as -> ->. inversion Hpre; subst.
           exists pre, post. repeat split; auto.
Qed.

(** X1.  findConcertByID returns a concert exactly when it is the first one
    of the list with the given ID: it carries that ID, and no concert before
    it in the list does. *)
Theorem findConcertByID_first_match concerts id c :
  findConcertByID concerts id = Some c
  <-> exists pre post,
        concerts = pre ++ c :: post
        /\ ID c = id
        /\ Forall (fun x => ID x <> id) pre.
Proof. apply findConcertByID_some. Qed.

(** X2.  findConcertByID returns nil exactly when no concert of the list has
    the given ID; on the empty list it always does. *)
Theorem findConcertByID_nil_iff concerts id :
  (findConcertByID concerts id = None
   <-> forall c, In c concerts -> ID c <> id)
  /\ findConcertByID [] id = None.
Proof.
  split; [|reflexivity].
  rewrite findConcertByID_none. apply Forall_forall.
Qed.

(** X3.  main refuses to start, rather than fall back to some concert, when
    a concert ID is given and no configured concert has it, or when no ID is
    given and no concert is configured; otherwise the concert it grabs is a
    configured one: the first with the given ID, or the first of the list
    when no ID is given. *)
Theorem targetConcert_choice concerts id :
  (targetConcert concerts id = inl (FatalConcertNotFound id)
   <-> id <> "" /\ forall c, In c concerts -> ID c <> id)
  /\ (targetConcert concerts id = inl FatalNoConcerts
      <-> id = "" /\ concerts = [])
  /\ (forall c,
        targetConcert concerts id = inr c ->
        In c concerts
        /\ (id <> "" -> findConcertByID concerts id = Some c /\ ID c = id)
        /\ (id = "" -> exists rest, concerts = c :: rest)).
Proof.
  unfold targetConcert.
  destruct (String.eqb_spec id "") as [Hid|Hid]; cbn [negb].
  - split; [|split].
    + split; [|intros [Hne _]; contradiction].
      destruct concerts; discriminate.
    + destruct concerts as [|c0 rest].
      * split; [auto | reflexivity].
      * split; [discriminate | intros [_ H]; discriminate H].
    + intros c Hc. destruct concerts as [|c0 rest]; [discriminate Hc|].
      injection Hc as ->. split; [left; reflexivity|].
      split; [contradiction|]. intros _. exists rest. reflexivity.
  - split; [|split].
    + destruct (findConcertByID concerts id) as [c|] eqn:Hfind.
      * split; [discriminate|]. intros [_ Hall].
        apply findConcertByID_some in Hfind.
        destruct Hfind as (pre & post & -> & Hc & _).
        exfalso. apply (Hall c); [apply in_elt | exact Hc].
      * split; [|reflexivity]. intros _. split; [exact Hid|].
        apply findConcertByID_none in Hfind.
        apply Forall_forall. exact Hfind.
    + split; [|intros [H _]; contradiction].
      destruct (findConcertByID concerts id); discriminate.
    + intros c Hc.
      destruct (findConcertByID concerts id) as [c'|] eqn:Hfind;
        [|discriminate Hc].
      injection Hc as ->.
      pose proof Hfind as Hsome. apply findConcertByID_some in Hsome.
      destruct Hsome as (pre & post & -> & Hidc & _).
      split; [apply in_elt|]. split; [intros _; split; [reflexivity | exact Hidc]|].
      intro H. contradiction.
Qed.

End Target.

(* ================================================================== *)
(** ** How a run and the process end *)

Section Endings.
Context {W : Type} {D : Driver W}.
Variable platform : float -> Z.
Import Grabber Browser Models Main.









End Endings.

(* ================================================================== *)
(** ** main *)

Section MainFacts.
Context {W : Type} {D : Driver W}.
Variable platform : float -> Z.
Import Grabber Browser Models Main.





End MainFacts.

(* ================================================================== *)
(** ** The ticker of monitorTickets *)

Section TickerDiscipline.
Context {W : Type} {D : Driver W}.
Variable platform : float -> Z.
Variable config : Models.Config.
Import Grabber Browser Models.

Lemma loop_has_no_ticker_events fuel concert (w : W) :
  count isNewTicker (events (monitorLoop fuel concert w)) = 0%nat
  /\ count isTickerStop (events (monitorLoop fuel concert w)) = 0%nat.
Proof.
  split; apply count_none;
    (eapply only_weaken; [|apply only_monitorLoop]);
    intros [[]| | | | | | | | |] He; try discriminate He; reflexivity.
Qed.

(** X8.  monitorTickets creates at most one ticker and stops it exactly when
    it returns, as its last action: a panic of NewTicker leaves no ticker
    behind, and while the loop runs the ticker is never stopped. *)
Theorem monitorTickets_stops_its_ticker fuel concert (w : W) :
  let run := monitorTickets platform config fuel concert w in
  (result run = Panicked ->
   count isNewTicker (events run) = 0%nat
   /\ count isTickerStop (events run) = 0%nat)
  /\ (result run = Running ->
      count isNewTicker (events run) = 1%nat
      /\ count isTickerStop (events run) = 0%nat)
  /\ (forall r,
        result run = Returned r ->
        count isNewTicker (events run) = 1%nat
        /\ exists before,
             events run = before ++ [EvTickerStop]
             /\ count isTickerStop before = 0%nat).
Proof.
  intro run. subst run. rewrite monitorTickets_run.
  destruct (loop_has_no_ticker_events fuel concert
              (startTicker (refreshInterval platform config) w)) as [Hnew Hstop].
  destruct (Time.tickerPanics _).
  { rewrite result_run, events_run.
    split; [intros _; split; reflexivity|]. split; [discriminate|].
    intros r H. discriminate H. }
  destruct (monitorLoop_outcome fuel concert
              (startTicker (refreshInterval platform config) w)) as [Hr|Hr];
    rewrite Hr, result_run, events_run.
  - split; [discriminate|]. split; [|intros r H; discriminate H]. intros _.
    change (EvLog LogMonitorStart :: EvNewTicker (refreshInterval platform config)
            :: events (monitorLoop fuel concert
                         (startTicker (refreshInterval platform config) w)))
      with ([EvLog LogMonitorStart; EvNewTicker (refreshInterval platform config)]
            ++ events (monitorLoop fuel concert
                         (startTicker (refreshInterval platform config) w))).
    rewrite !count_app, Hnew, Hstop. split; reflexivity.
  - split; [discriminate|]. split; [discriminate|]. intros r _. split.
    + change (EvLog LogMonitorStart :: EvNewTicker (refreshInterval platform config)
              :: events (monitorLoop fuel concert
                           (startTicker (refreshInterval platform config) w))
              ++ [EvTickerStop])
        with ([EvLog LogMonitorStart; EvNewTicker (refreshInterval platform config)]
              ++ events (monitorLoop fuel concert
                           (startTicker (refreshInterval platform config) w))
              ++ [EvTickerStop]).
      rewrite !count_app, Hnew. reflexivity.
    + exists (EvLog LogMonitorStart :: EvNewTicker (refreshInterval platform config)
              :: events (monitorLoop fuel concert
                           (startTicker (refreshInterval platform config) w))).
      split; [reflexivity|].
      change (EvLog LogMonitorStart :: EvNewTicker (refreshInterval platform config)
              :: events (monitorLoop fuel concert
                           (startTicker (refreshInterval platform config) w)))
        with ([EvLog LogMonitorStart; EvNewTicker (refreshInterval platform config)]
              ++ events (monitorLoop fuel concert
                           (startTicker (refreshInterval platform config) w))).
      rewrite count_app, Hstop. reflexivity.
Qed.

End TickerDiscipline.

(* ================================================================== *)
(** ** Clicking *)

Section Clicking.
Context {W : Type} {D : Driver W}.
Import Grabber Browser Models.

Lemma ClickElement_run selector (w : W) :
  ClickElement selector w
  = match fst (runEvaluate (existsScript selector) w) with
    | (true, None) =>
        (match fst (runClick selector (snd (runEvaluate (existsScript selector) w))) with
         | Some e => (false, Some e)
         | None => (true, None)
         end,
         snd (runClick selector (snd (runEvaluate (existsScript selector) w))),
         [EvEvaluate selector true None;
          EvClick selector
            (fst (runClick selector (snd (runEvaluate (existsScript selector) w))))])
    | (found, r) =>
        ((false, Some (ElementMissing selector)),
         snd (runEvaluate (existsScript selector) w),
         [EvEvaluate selector found r])
    end.
Proof.
  unfold ClickElement. rewrite bind_run, ElementExists_run.
  rewrite !result_run, !final_run, !events_run.
  destruct (runEvaluate (existsScript selector) w) as [[found r] w1]; cbn [fst snd].
  destruct r as [e|]; [destruct found; reflexivity|].
  destruct found; [|reflexivity].
  unfold result, final, events.
  destruct (runClick selector w1) as [[e|] w2]; reflexivity.
Qed.

(** X9.  ClickElement clicks only an element it has just found: a click
    event is always preceded by the query of the same selector answering
    "present" without error.  It reports (true, nil) exactly when that
    click went through, and an error in every other case. *)
Theorem ClickElement_clicks_only_what_it_found selector (w : W) :
  (forall s r,
      In (EvClick s r) (events (ClickElement selector w)) ->
      events (ClickElement selector w)
      = [EvEvaluate selector true None; EvClick selector r] /\ s = selector)
  /\ (result (ClickElement selector w) = (true, None)
      <-> In (EvClick selector None) (events (ClickElement selector w)))
  /\ (result (ClickElement selector w) = (true, None)
      \/ exists e, result (ClickElement selector w) = (false, Some e)).
Proof.
  rewrite ClickElement_run.
  destruct (fst (runEvaluate (existsScript selector) w)) as [[|] [e|]];
    rewrite ?result_run, ?events_run.
  - split; [intros s r [H|[]]; discriminate H|]. split.
    + split; [discriminate | intros [H|[]]; discriminate H].
    + right. eexists. reflexivity.
  - destruct (fst (runClick selector _)) as [e|].
    + split.
      * intros s r [H|[H|[]]]; [discriminate H|]. injection H as <- <-. auto.
      * split; [|right; eexists; reflexivity].
        split; [discriminate|]. intros [H|[H|[]]]; discriminate H.
    + split.
      * intros s r [H|[H|[]]]; [discriminate H|]. injection H as <- <-. auto.
      * split; [|left; reflexivity].
        split; [intros _; right; left; reflexivity | reflexivity].
  - split; [intros s r [H|[]]; discriminate H|]. split.
    + split; [discriminate | intros [H|[]]; discriminate H].
    + right. eexists. reflexivity.
  - split; [intros s r [H|[]]; discriminate H|]. split.
    + split; [discriminate | intros [H|[]]; discriminate H].
    + right. eexists. reflexivity.
Qed.

Lemma queried_app a b : queried (a ++ b) = queried a ++ queried b.
Proof. unfold queried. apply flat_map_app. Qed.

Lemma ClickElement_queried selector (w : W) :
  queried (events (ClickElement selector w)) = [selector].
Proof.
  rewrite ClickElement_run.
  destruct (fst (runEvaluate (existsScript selector) w)) as [[|] [e|]]; reflexivity.
Qed.

Lemma ClickElement_done selector (w : W) :
  count isDoneClick (events (ClickElement selector w))
  = if matched (result (ClickElement selector w)) then 1%nat else 0%nat.
Proof.
  rewrite ClickElement_run.
  destruct (fst (runEvaluate (existsScript selector) w)) as [[|] [e|]]; try reflexivity.
  rewrite result_run, events_run.
  destruct (fst (runClick selector _)); reflexivity.
Qed.

Lemma clickFirst_scan selectors (w : W) :
  exists k,
    (k <= List.length selectors)%nat
    /\ queried (events (clickFirst selectors w)) = firstn k selectors
    /\ count isDoneClick (events (clickFirst selectors w))
       = (if result (clickFirst selectors w) then 1%nat else 0%nat)
    /\ (result (clickFirst selectors w) = false -> k = List.length selectors)
    /\ (result (clickFirst selectors w) = true ->
        exists before,
          events (clickFirst selectors w)
          = before ++ [EvClick (nth (k - 1) selectors "") None;
                       EvLog LogBuyClicked]
          /\ (0 < k)%nat).
Proof.
  revert w; induction selectors as [|selector rest IH]; intro w;
    cbn [clickFirst].
  - exists 0%nat. repeat split; auto. discriminate.
  - rewrite bind_result, bind_events.
    pose proof (ClickElement_queried selector w) as Hq.
    pose proof (ClickElement_done selector w) as Hd.
    assert (Hlast : matched (result (ClickElement selector w)) = true ->
              exists before,
                events (ClickElement selector w)
                = before ++ [EvClick selector None]).
    { rewrite ClickElement_run.
      destruct (fst (runEvaluate (existsScript selector) w)) as [[|] [e|]];
        rewrite ?result_run, ?events_run; try discriminate.
      destruct (fst (runClick selector _)); [discriminate|].
      intros _. exists [EvEvaluate selector true None]. reflexivity. }
    destruct (result (ClickElement selector w)) as [[|] [e|]];
      cbn [matched] in Hd, Hlast.
    1, 3, 4:
      destruct (IH (final (ClickElement selector w)))
        as (k & Hk & Hqk & Hdk & Hall & Hok);
      exists (S k);
      (split; [cbn; lia|]);
      (split; [rewrite queried_app, Hq, Hqk; reflexivity|]);
      (split; [rewrite count_app, Hd, Hdk; reflexivity|]);
      (split; [intro Hf; rewrite (Hall Hf); reflexivity|]);
      intro Ht; destruct (Hok Ht) as (before & Hev & Hpos);
      exists (events (ClickElement selector w) ++ before);
      (split; [|lia]);
      rewrite Hev, <- app_assoc;
      destruct k as [|k']; [lia|];
      cbn [Nat.sub nth]; rewrite Nat.sub_0_r; reflexivity.
    destruct (Hlast eq_refl) as (before & Hev).
    exists 1%nat.
    split; [cbn; lia|].
    split; [rewrite queried_app, Hq; reflexivity|].
    split; [rewrite count_app, Hd; reflexivity|].
    split; [discriminate|]. intros _.
    exists before. split; [|lia].
    rewrite bind_events, Hev, <- app_assoc. reflexivity.
Qed.

(** X10.  confirmPurchase tries the three purchase buttons in their listed
    order and stops at the first click that goes through, which is its last
    page action; it clicks at most one button.  It fails, with the
    no-button error, exactly when all three were tried and none could be
    clicked. *)
Theorem confirmPurchase_first_button (w : W) :
  exists k,
    (k <= 3)%nat
    /\ queried (events (confirmPurchase w)) = firstn k purchaseSelectors
    /\ (result (confirmPurchase w) = None ->
        (0 < k)%nat
        /\ count isDoneClick (events (confirmPurchase w)) = 1%nat
        /\ exists before,
             events (confirmPurchase w)
             = before ++ [EvClick (nth (k - 1) purchaseSelectors "") None;
                          EvLog LogBuyClicked])
    /\ (result (confirmPurchase w) <> None ->
        result (confirmPurchase w) = Some NoBuyButton
        /\ k = 3%nat
        /\ count isDoneClick (events (confirmPurchase w)) = 0%nat).
Proof.
  unfold confirmPurchase.
  rewrite !bind_result, !bind_events.
  change (final (logLine LogConfirming w)) with w.
  change (events (logLine LogConfirming w)) with [EvLog LogConfirming].
  change (result (logLine LogConfirming w)) with tt.
  destruct (clickFirst_scan purchaseSelectors w)
    as (k & Hk & Hq & Hd & Hall & Hok).
  exists k. split; [exact Hk|].
  destruct (result (clickFirst purchaseSelectors w)) eqn:Hr.
  - split; [rewrite !queried_app, Hq; cbn; rewrite app_nil_r; reflexivity|].
    split; [|intro H; exfalso; apply H; reflexivity]. intros _.
    destruct (Hok eq_refl) as (before & Hev & Hpos).
    split; [exact Hpos|].
    split; [rewrite !count_app, Hd; reflexivity|].
    exists (EvLog LogConfirming :: before).
    rewrite Hev. cbn [app events ret]. rewrite app_nil_r. reflexivity.
  - split; [rewrite !queried_app, Hq; cbn; rewrite app_nil_r; reflexivity|].
    split; [discriminate|]. intros _.
    split; [reflexivity|]. split; [apply Hall; reflexivity|].
    rewrite !count_app, Hd. reflexivity.
Qed.

End Clicking.

(* ================================================================== *)
(** ** The steps of the login *)

Section LoginSteps.
Context {W : Type} {D : Driver W}.
Variable config : Models.Config.
Import Grabber Browser Models.

Ltac pick_event H :=
  cbn [In] in H;
  repeat (destruct H as [H|H]; [try discriminate H|]);
  try contradiction.

Lemma FillForm_run fields (w : W) :
  FillForm fields w
  = (fst (runSetValues fields w), snd (runSetValues fields w),
     [EvLog LogFillForm; EvSetValues fields (fst (runSetValues fields w))]).
Proof.
  unfold FillForm. rewrite bind_run.
  cbn [logLine emit result final events fst snd app].
  destruct (runSetValues fields w) as [r w1]. reflexivity.
Qed.

Lemma SubmitForm_run (w : W) :
  SubmitForm w
  = (fst (runClickSubmit w), snd (runClickSubmit w),
     [EvLog LogSubmitForm; EvClickSubmit (fst (runClickSubmit w))]).
Proof.
  unfold SubmitForm. rewrite bind_run.
  cbn [logLine emit result final events fst snd app].
  destruct (runClickSubmit w) as [r w1]. reflexivity.
Qed.

Lemma loginWith_run site userField passField (w : W) :
  let url := LoginURL (siteOf (Sites (Ticketing config)) site) in
  let fields := [(userField, Username (User config));
                 (passField, Password (User config))] in
  let w1 := snd (runNavigate url w) in
  let w2 := snd (runSetValues fields w1) in
  let w3 := snd (runClickSubmit w2) in
  loginWith config site userField passField w
  = match fst (runNavigate url w) with
    | Some e =>
        (Some e, w1, [EvLog (LogNavigateTo url); EvNavigate url (Some e)])
    | None =>
        match fst (runSetValues fields w1) with
        | Some e =>
            (Some e, w2,
             [EvLog (LogNavigateTo url); EvNavigate url None;
              EvLog LogFillForm; EvSetValues fields (Some e)])
        | None =>
            match fst (runClickSubmit w2) with
            | Some e =>
                (Some e, w3,
                 [EvLog (LogNavigateTo url); EvNavigate url None;
                  EvLog LogFillForm; EvSetValues fields None;
                  EvLog LogSubmitForm; EvClickSubmit (Some e)])
            | None =>
                (None, w3,
                 [EvLog (LogNavigateTo url); EvNavigate url None;
                  EvLog LogFillForm; EvSetValues fields None;
                  EvLog LogSubmitForm; EvClickSubmit None;
                  EvLog (LogLoginOk site)])
            end
        end
    end.
Proof.
  intros url fields w1 w2 w3. unfold loginWith. fold url fields.
  rewrite bind_run, Navigate_run, !result_run, !final_run, !events_run.
  fold w1. destruct (fst (runNavigate url w)) as [e|]; [reflexivity|].
  rewrite bind_run, FillForm_run, !result_run, !final_run, !events_run.
  fold w2. destruct (fst (runSetValues fields w1)) as [e|]; [reflexivity|].
  rewrite bind_run, SubmitForm_run, !result_run, !final_run, !events_run.
  fold w3. destruct (fst (runClickSubmit w2)) as [e|]; [reflexivity|].
  rewrite bind_run. reflexivity.
Qed.

(** X11.  The login of a site types the credentials only into a login page
    that loaded, and submits only a form it could fill: the form is filled,
    with the configured user name and password under the site's two field
    names, only after the navigation to the site's login URL succeeded, the
    submit follows only a successful fill, and the login succeeds exactly
    when the submit did. *)
Theorem loginWith_steps_in_order site userField passField (w : W) :
  let url := LoginURL (siteOf (Sites (Ticketing config)) site) in
  let fields := [(userField, Username (User config));
                 (passField, Password (User config))] in
  let run := loginWith config site userField passField w in
  (forall f r, In (EvSetValues f r) (events run) ->
               f = fields /\ In (EvNavigate url None) (events run))
  /\ (forall r, In (EvClickSubmit r) (events run) ->
                In (EvSetValues fields None) (events run))
  /\ (forall u r, In (EvNavigate u r) (events run) -> u = url)
  /\ (result run = None <-> In (EvClickSubmit None) (events run)).
Proof.
  intros url fields run. subst run. rewrite loginWith_run. fold url fields.
  destruct (fst (runNavigate url w)) as [e1|];
    [|destruct (fst (runSetValues fields _)) as [e2|];
      [|destruct (fst (runClickSubmit _)) as [e3|]]];
    rewrite ?result_run, ?events_run;
    (split; [|split; [|split; [|split]]];
     [ intros f r Hin; pick_event Hin;
       try (injection Hin as <- <-; split; [reflexivity | cbn [In]; auto 10])
     | intros r Hin; pick_event Hin; cbn [In]; auto 10
     | intros u r Hin; pick_event Hin; try (injection Hin as <- <-; reflexivity)
     | intro Hin; try discriminate Hin; cbn [In]; auto 10
     | intro Hin; pick_event Hin; reflexivity ]).
Qed.

Lemma siteOf_absent sites key :
  (forall v, ~ In (key, v) sites) -> siteOf sites key = zeroSite.
Proof.
  induction sites as [|[k v] rest IH]; intro Habs; [reflexivity|].
  cbn [siteOf]. destruct (String.eqb_spec k key) as [->|Hne].
  - exfalso. apply (Habs v). left. reflexivity.
  - apply IH. intros v' Hin. apply (Habs v'). right. exact Hin.
Qed.

(** X12.  When the configured site is one of the three supported ones but
    the site table has no entry for it, login does not fail for the missing
    entry: it navigates to the empty URL, the login URL of the zero site. *)
Theorem login_without_site_entry (w : W) :
  supportedSite (DefaultSite (Ticketing config)) = true ->
  (forall v, ~ In (DefaultSite (Ticketing config), v) (Sites (Ticketing config))) ->
  exists r rest,
    events (login config w)
    = EvLog LogLoggingIn :: EvLog (LogNavigateTo "") :: EvNavigate "" r :: rest.
Proof.
  intros Hsup Habs. unfold login. rewrite bind_events.
  change (events (logLine LogLoggingIn w)) with [EvLog LogLoggingIn].
  change (final (logLine LogLoggingIn w)) with w.
  change (result (logLine LogLoggingIn w)) with tt.
  cbv beta.
  assert (Hgo : forall u p,
            exists r rest,
              events (loginWith config (DefaultSite (Ticketing config)) u p w)
              = EvLog (LogNavigateTo "") :: EvNavigate "" r :: rest).
  { intros u p. rewrite loginWith_run, (siteOf_absent _ _ Habs).
    cbn [LoginURL zeroSite].
    destruct (fst (runNavigate "" w)) as [e|];
      [|destruct (fst (runSetValues _ _)) as [e|];
        [|destruct (fst (runClickSubmit _)) as [e|]]];
      rewrite events_run; eexists; eexists; reflexivity. }
  unfold supportedSite in Hsup.
  unfold loginInterpark, loginYes24, loginMelon.
  destruct (String.eqb_spec (DefaultSite (Ticketing config)) "interpark") as [H1|H1].
  { destruct (Hgo "username" "password") as (r & rest & Hev).
    rewrite H1 in Hev. exists r, rest. cbn [app]. rewrite Hev. reflexivity. }
  destruct (String.eqb_spec (DefaultSite (Ticketing config)) "yes24") as [H2|H2].
  { destruct (Hgo "userId" "userPw") as (r & rest & Hev).
    rewrite H2 in Hev. exists r, rest. cbn [app]. rewrite Hev. reflexivity. }
  destruct (String.eqb_spec (DefaultSite (Ticketing config)) "melon") as [H3|H3].
  { destruct (Hgo "id" "pw") as (r & rest & Hev).
    rewrite H3 in Hev. exists r, rest. cbn [app]. rewrite Hev. reflexivity. }
  discriminate Hsup.
Qed.

End LoginSteps.

(* ================================================================== *)
(** ** The payment wait and the order of the purchase steps *)

Section PurchaseSteps.
Context {W : Type} {D : Driver W}.
Import Grabber Browser Models.

Lemma slept_app a b : slept (a ++ b) = slept a + slept b.
Proof.
  induction a as [|e a IH]; [reflexivity|].
  cbn [app slept fold_right] in *. fold (slept (a ++ b)). fold (slept a).
  rewrite IH. destruct e; lia.
Qed.

Lemma slept_none t : only (isNot isSleep) t -> slept t = 0.
Proof.
  induction 1 as [|e t He Ht IH]; [reflexivity|].
  cbn [slept fold_right]. fold (slept t). rewrite IH.
  destruct e; try reflexivity. discriminate He.
Qed.

Lemma paymentChecks_budget left (w : W) :
  (count isQuery (events (paymentChecks left w)) <= left)%nat
  /\ slept (events (paymentChecks left w))
     = Z.of_nat (count isQuery (events (paymentChecks left w))) * Time.Second
  /\ only isPaymentWait (events (paymentChecks left w))
  /\ (result (paymentChecks left w) = Some PaymentTimeout ->
      count isQuery (events (paymentChecks left w)) = left)
  /\ (result (paymentChecks left w) = None
      \/ result (paymentChecks left w) = Some PaymentTimeout)
  /\ (result (paymentChecks left w) = None ->
      In (EvEvaluate ".payment-success" true None)
         (events (paymentChecks left w))).
Proof.
  revert w; induction left as [|left IH]; intro w; cbn [paymentChecks].
  - cbn [ret result events fst snd].
    repeat split; auto; try constructor. discriminate.
  - rewrite bind_result, bind_events.
    change (events (sleep (1 * Time.Second) w)) with [EvSleep (1 * Time.Second)].
    change (final (sleep (1 * Time.Second) w)) with (sleepFor (1 * Time.Second) w).
    change (result (sleep (1 * Time.Second) w)) with tt. cbv beta.
    rewrite bind_result, bind_events, ElementExists_run.
    rewrite !result_run, !final_run, !events_run.
    destruct (runEvaluate (existsScript ".payment-success") (sleepFor (1 * Time.Second) w))
      as [[found r] w1]; cbn [fst snd].
    destruct (matched (found, r)) eqn:Hm.
    + destruct found; [|discriminate Hm]. destruct r; [discriminate Hm|].
      rewrite bind_result, bind_events. cbn [logLine emit ret result events fst snd app].
      split; [cbn; lia|]. split; [reflexivity|].
      split; [repeat constructor|]. split; [discriminate|].
      split; [left; reflexivity|]. intros _. right. left. reflexivity.
    + assert (Hgo : forall A (x y : A),
                 match r with
                 | Some _ => y
                 | None => if found then x else y
                 end = y).
      { intros A x y. destruct r; [reflexivity|].
        destruct found; [discriminate Hm | reflexivity]. }
      rewrite !Hgo.
      destruct (IH w1) as (Hle & Hsl & Hon & Hto & Hres & Hok).
      change ([EvSleep (1 * Time.Second)]
              ++ [EvEvaluate ".payment-success" found r]
              ++ events (paymentChecks left w1))
        with (EvSleep (1 * Time.Second)
              :: EvEvaluate ".payment-success" found r
              :: events (paymentChecks left w1)).
      split; [unfold count in *; cbn [filter isQuery List.length]; lia|].
      split.
      { cbn [slept fold_right count filter isQuery List.length].
        fold (slept (events (paymentChecks left w1))).
        fold (count isQuery (events (paymentChecks left w1))).
        rewrite Hsl, Nat2Z.inj_succ. unfold Time.Second. lia. }
      split; [constructor; [reflexivity|]; constructor; [reflexivity | exact Hon]|].
      split; [intro H; cbn [count filter isQuery List.length];
              fold (count isQuery (events (paymentChecks left w1)));
              rewrite (Hto H); reflexivity|].
      split; [exact Hres|]. intro H. right. right. exact (Hok H).
Qed.

(** X13.  handlePayment only waits: it sleeps and looks for the
    payment-success element, and never clicks, fills or navigates.  It makes
    between one and sixty checks and has slept three seconds plus one second
    per check when it returns; it returns nil only after a check that saw
    the element, and the timeout only after all sixty. *)
Theorem handlePayment_only_waits (w : W) :
  only isPaymentWait (events (handlePayment w))
  /\ (1 <= count isQuery (events (handlePayment w)) <= 60)%nat
  /\ slept (events (handlePayment w))
     = (3 + Z.of_nat (count isQuery (events (handlePayment w)))) * Time.Second
  /\ (result (handlePayment w) = Some PaymentTimeout ->
      count isQuery (events (handlePayment w)) = 60%nat)
  /\ (result (handlePayment w) = None ->
      In (EvEvaluate ".payment-success" true None) (events (handlePayment w)))
  /\ (result (handlePayment w) = None
      \/ result (handlePayment w) = Some PaymentTimeout).
Proof.
  rewrite handlePayment_run, result_run, events_run.
  pose proof (paymentChecks_budget 60 (sleepFor (3 * Time.Second) w)) as Hb.
  revert Hb.
  generalize (paymentChecks 60 (sleepFor (3 * Time.Second) w)) as checks.
  intros checks (Hle & Hsl & Hon & Hto & Hres & Hok).
  assert (Hcount : count isQuery
                     (EvLog LogPaymentStart :: EvSleep (3 * Time.Second)
                      :: EvLog LogPayManually :: events checks)
                   = count isQuery (events checks)) by reflexivity.
  rewrite Hcount.
  split; [repeat (constructor; [reflexivity|]); exact Hon|].
  split.
  { split; [|exact Hle].
    destruct Hres as [Hr|Hr].
    - specialize (Hok Hr).
      destruct (count isQuery (events checks)) eqn:Hc; [|lia].
      exfalso. unfold count in Hc. apply length_zero_iff_nil in Hc.
      assert (Hin : In (EvEvaluate ".payment-success" true None)
                       (filter isQuery (events checks)))
        by (apply filter_In; split; [exact Hok | reflexivity]).
      rewrite Hc in Hin. exact Hin.
    - rewrite (Hto Hr). lia. }
  split.
  { cbn [slept fold_right]. fold (slept (events checks)). rewrite Hsl.
    unfold Time.Second. lia. }
  split; [exact Hto|]. split; [|exact Hres].
  intro Hr. right. right. right. exact (Hok Hr).
Qed.

Lemma seatTypeSelector_is_seat tag : isSeatSelector (seatTypeSelector tag) = true.
Proof.
  unfold isSeatSelector, seatTypeSelector. cbn.
  destruct (tag ++ "']")%string; reflexivity.
Qed.

Lemma seat_selector_is_no_button selector :
  isSeatSelector selector = true ->
  existsb (String.eqb selector) purchaseSelectors = false.
Proof.
  intro Hs. cbn [existsb purchaseSelectors].
  destruct (String.eqb_spec selector ".btn-purchase") as [->|_];
    [discriminate Hs|].
  destruct (String.eqb_spec selector ".btn-buy") as [->|_];
    [discriminate Hs|].
  destruct (String.eqb_spec selector "[data-action='purchase']") as [->|_];
    [discriminate Hs|].
  reflexivity.
Qed.

Lemma only_seat_ClickElement selector (w : W) :
  isSeatSelector selector = true ->
  only isSeatEvent (events (ClickElement selector w)).
Proof.
  intro Hs. apply only_ClickElement; intros; exact Hs.
Qed.

Lemma only_seat_selectPreferred tags (w : W) :
  only isSeatEvent (events (selectPreferred tags w)).
Proof.
  revert w; induction tags as [|tag rest IH]; intro w;
    cbn [selectPreferred]; [constructor|].
  apply only_bind;
    [apply only_seat_ClickElement, seatTypeSelector_is_seat|].
  intros [[|] [e|]] w'; try apply IH.
  repeat constructor.
Qed.

Lemma only_seat_selectSeats concert (w : W) :
  only isSeatEvent (events (selectSeats concert w)).
Proof.
  unfold selectSeats.
  apply only_bind; [repeat constructor|]. intros _ w1.
  apply only_bind; [apply only_seat_selectPreferred|].
  intros [|] w2; [constructor|].
  apply only_bind; [apply only_seat_ClickElement; reflexivity|].
  intros [[|] [e|]] w3; repeat constructor.
Qed.

Lemma only_nosleep_confirmPurchase (w : W) :
  only (isNot isSleep) (events (confirmPurchase w)).
Proof.
  unfold confirmPurchase.
  apply only_bind; [repeat constructor|]. intros _ w1.
  apply only_bind; [|intros [|] w2; constructor].
  generalize purchaseSelectors as selectors. intro selectors.
  revert w1; induction selectors as [|selector rest IH]; intro w1;
    cbn [clickFirst]; [constructor|].
  apply only_bind; [apply only_ClickElement; reflexivity|].
  intros [[|] [e|]] w'; try apply IH.
  repeat constructor.
Qed.

Lemma purchaseTicket_run_seat_failed concert (w : W) e :
  result (selectSeats concert w) = Some e ->
  purchaseTicket concert w
  = (Some (SeatSelectionFailed e), final (selectSeats concert w),
     EvLog LogPurchaseStart :: events (selectSeats concert w)).
Proof.
  intro Hseat. unfold purchaseTicket. rewrite bind_run.
  change (final (logLine LogPurchaseStart w)) with w.
  change (events (logLine LogPurchaseStart w)) with [EvLog LogPurchaseStart].
  change (result (logLine LogPurchaseStart w)) with tt. cbv beta.
  rewrite bind_run, Hseat. cbn [ret result final events fst snd app].
  rewrite app_nil_r. reflexivity.
Qed.

Lemma purchaseTicket_run_confirm_failed concert (w : W) e :
  result (selectSeats concert w) = None ->
  result (confirmPurchase (final (selectSeats concert w))) = Some e ->
  purchaseTicket concert w
  = (Some (ConfirmFailed e),
     final (confirmPurchase (final (selectSeats concert w))),
     EvLog LogPurchaseStart :: events (selectSeats concert w)
     ++ events (confirmPurchase (final (selectSeats concert w)))).
Proof.
  intros Hseat Hconfirm. unfold purchaseTicket. rewrite bind_run.
  change (final (logLine LogPurchaseStart w)) with w.
  change (events (logLine LogPurchaseStart w)) with [EvLog LogPurchaseStart].
  change (result (logLine LogPurchaseStart w)) with tt. cbv beta.
  rewrite bind_run, Hseat. cbv beta iota.
  rewrite bind_run, Hconfirm. cbn [ret result final events fst snd app].
  rewrite app_nil_r. reflexivity.
Qed.

(** X14.  purchaseTicket stops at its first failed step.  After a failed
    seat selection it has touched seat selectors only: no purchase button
    was clicked and nothing was waited for.  After a failed confirmation it
    has not started the payment wait: the run has not slept. *)
Theorem purchaseTicket_stops_at_failed_step concert (w : W) :
  (forall e,
      result (selectSeats concert w) = Some e ->
      purchaseTicket concert w
      = (Some (SeatSelectionFailed e), final (selectSeats concert w),
         EvLog LogPurchaseStart :: events (selectSeats concert w))
      /\ count isPurchaseClick (events (purchaseTicket concert w)) = 0%nat
      /\ slept (events (purchaseTicket concert w)) = 0)
  /\ (forall e,
        result (selectSeats concert w) = None ->
        result (confirmPurchase (final (selectSeats concert w))) = Some e ->
        purchaseTicket concert w
        = (Some (ConfirmFailed e),
           final (confirmPurchase (final (selectSeats concert w))),
           EvLog LogPurchaseStart :: events (selectSeats concert w)
           ++ events (confirmPurchase (final (selectSeats concert w))))
        /\ slept (events (purchaseTicket concert w)) = 0).
Proof.
  pose proof (only_seat_selectSeats concert w) as Hseats.
  assert (Hnobutton : only (isNot isPurchaseClick) (events (selectSeats concert w))).
  { eapply only_weaken; [|exact Hseats].
    intros [] He; try reflexivity. unfold isNot. cbn [isPurchaseClick].
    cbn [isSeatEvent] in He. rewrite (seat_selector_is_no_button _ He).
    reflexivity. }
  assert (Hnosleep : only (isNot isSleep) (events (selectSeats concert w))).
  { eapply only_weaken; [|exact Hseats].
    intros [] He; try reflexivity. discriminate He. }
  split.
  - intros e Hseat. rewrite (purchaseTicket_run_seat_failed _ _ _ Hseat).
    split; [reflexivity|]. rewrite events_run. split.
    + change (EvLog LogPurchaseStart :: events (selectSeats concert w))
        with ([EvLog LogPurchaseStart] ++ events (selectSeats concert w)).
      rewrite count_app, (count_none _ _ Hnobutton). reflexivity.
    + change (EvLog LogPurchaseStart :: events (selectSeats concert w))
        with ([EvLog LogPurchaseStart] ++ events (selectSeats concert w)).
      rewrite slept_app, (slept_none _ Hnosleep). reflexivity.
  - intros e Hseat Hconfirm.
    rewrite (purchaseTicket_run_confirm_failed _ _ _ Hseat Hconfirm).
    split; [reflexivity|]. rewrite events_run.
    change (EvLog LogPurchaseStart :: events (selectSeats concert w)
            ++ events (confirmPurchase (final (selectSeats concert w))))
      with ([EvLog LogPurchaseStart] ++ events (selectSeats concert w)
            ++ events (confirmPurchase (final (selectSeats concert w)))).
    rewrite !slept_app, (slept_none _ Hnosleep),
      (slept_none _ (only_nosleep_confirmPurchase _)).
    reflexivity.
Qed.

End PurchaseSteps.

(* ================================================================== *)
(** ** package api: requests and logins *)

Section ApiFacts.
Context {W : Type}.
Variable marshal : Api.LoginRequest -> string + nat.
Variable unmarshal : string -> Api.LoginResponse + nat.
Variable checkRequest : string -> string -> option nat.
Variable clientDo : Api.Request -> W -> (Api.Response + nat) * W.
Variable config : Models.Config.
Variable userAgent : string.
Import Models Api.

Local Abbreviation post := (Api.post marshal checkRequest clientDo userAgent).
Local Abbreviation siteLogin :=
  (Api.siteLogin marshal unmarshal checkRequest clientDo config userAgent).
Local Abbreviation Login :=
  (Api.Login marshal unmarshal checkRequest clientDo config userAgent).

Lemma roundTrip_answer req (w : W) body :
  answer (roundTrip clientDo req w) = Ok body
  <-> exists resp,
        fst (clientDo req w) = inl resp
        /\ ReadBody resp = inl body
        /\ StatusCode resp = 200.
Proof.
  unfold roundTrip, answer.
  destruct (clientDo req w) as [[resp|code] w1]; cbn [fst snd].
  - destruct (ReadBody resp) as [b|code] eqn:Hb.
    + destruct (Z.eqb_spec (StatusCode resp) 200) as [Hs|Hs]; cbn [negb fst].
      * split.
        -- intro H. injection H as <-. exists resp. auto.
        -- intros (resp' & Hr & Hb' & _). injection Hr as <-.
           rewrite Hb in Hb'. injection Hb' as <-. reflexivity.
      * split; [discriminate|].
        intros (resp' & Hr & _ & Hs'). injection Hr as <-. contradiction.
    + split; [discriminate|].
      intros (resp' & Hr & Hb' & _). injection Hr as <-.
      rewrite Hb in Hb'. discriminate Hb'.
  - split; [discriminate|]. intros (resp & Hr & _). discriminate Hr.
Qed.

Lemma roundTrip_trace req (w : W) : trace (roundTrip clientDo req w) = [DoCall req].
Proof.
  unfold roundTrip, trace.
  destruct (clientDo req w) as [[resp|code] w1]; [|reflexivity].
  destruct (ReadBody resp); [|reflexivity].
  destruct (negb _); reflexivity.
Qed.

(** X15.  post hands back the response body exactly when the request could
    be built and sent, the body could be read and the status is 200.  Any
    other status, 201 or 204 as much as 404, is an error that carries the
    status and the body. *)
Theorem post_accepts_only_200 url data (w : W) :
  (forall body,
      answer (post url data w) = Ok body
      <-> exists jsonData resp,
            marshal data = inl jsonData
            /\ checkRequest "POST" url = None
            /\ fst (clientDo (postRequest userAgent url jsonData) w) = inl resp
            /\ ReadBody resp = inl body
            /\ StatusCode resp = 200)
  /\ (forall jsonData resp body,
        marshal data = inl jsonData ->
        checkRequest "POST" url = None ->
        fst (clientDo (postRequest userAgent url jsonData) w) = inl resp ->
        ReadBody resp = inl body ->
        StatusCode resp <> 200 ->
        answer (post url data w) = Failed (HTTPError (StatusCode resp) body)).
Proof.
  unfold Api.post. split.
  - intro body.
    destruct (marshal data) as [jsonData|code].
    + destruct (checkRequest "POST" url) as [code|].
      * split; [discriminate|]. intros (j & resp & _ & H & _). discriminate H.
      * rewrite roundTrip_answer. split.
        -- intros (resp & H1 & H2 & H3). exists jsonData, resp. auto.
        -- intros (j & resp & Hj & _ & H1 & H2 & H3). injection Hj as <-.
           exists resp. auto.
    + split; [discriminate|]. intros (j & resp & H & _). discriminate H.
  - intros jsonData resp body Hm Hc Hd Hb Hs. rewrite Hm, Hc.
    unfold roundTrip, answer.
    destruct (clientDo (postRequest userAgent url jsonData) w) as [r w1].
    cbn [fst] in Hd. subst r. rewrite Hb.
    destruct (Z.eqb_spec (StatusCode resp) 200); [contradiction|]. reflexivity.
Qed.

Lemma post_trace url data (w : W) :
  trace (post url data w) = []
  \/ exists jsonData,
       marshal data = inl jsonData
       /\ checkRequest "POST" url = None
       /\ trace (post url data w) = [DoCall (postRequest userAgent url jsonData)].
Proof.
  unfold Api.post.
  destruct (marshal data) as [jsonData|code]; [|left; reflexivity].
  destruct (checkRequest "POST" url) as [code|]; [left; reflexivity|].
  right. exists jsonData. rewrite roundTrip_trace. auto.
Qed.

Lemma post_request url data (w : W) req :
  In (DoCall req) (trace (post url data w)) ->
  trace (post url data w) = [DoCall req]
  /\ Method req = "POST"
  /\ Target req = url
  /\ marshal data = inl (match Body req with Some b => b | None => "" end)
  /\ Body req <> None
  /\ Header req = [("Content-Type", "application/json");
                   ("User-Agent", userAgent)].
Proof.
  unfold Api.post.
  destruct (marshal data) as [jsonData|code]; [|intros []].
  destruct (checkRequest "POST" url) as [code|]; [intros []|].
  rewrite roundTrip_trace. intros [H|[]]. injection H as <-.
  repeat split; try reflexivity. discriminate.
Qed.

Lemma siteLogin_requests site (w : W) req :
  In (DoCall req) (trace (siteLogin site w)) ->
  Target req = LoginURL (siteOf (Sites (Ticketing config)) site)
  /\ Method req = "POST".
Proof.
  unfold Api.siteLogin.
  pose proof (post_request
                (LoginURL (siteOf (Sites (Ticketing config)) site))
                {| ReqUsername := Username (User config);
                   ReqPassword := Password (User config) |} w req) as Hreq.
  unfold trace in *.
  destruct (post _ _ w) as [[resp w1] t]; cbn [fst snd] in *.
  assert (Hgo : In (DoCall req) t ->
                Target req = LoginURL (siteOf (Sites (Ticketing config)) site)
                /\ Method req = "POST").
  { intro Hin. destruct (Hreq Hin) as (_ & Hm & Ht & _). auto. }
  destruct resp as [body|e]; [|exact Hgo].
  destruct (unmarshal body) as [r|code]; [|exact Hgo].
  destruct (negb (Success r)); [exact Hgo|]. cbn [snd].
  intro Hin. apply in_app_or in Hin.
  destruct Hin as [Hin|[Hin|[]]]; [exact (Hgo Hin) | discriminate Hin].
Qed.

(** X16.  post calls [client.Do] at most once, and not at all when the data
    cannot be encoded or the request cannot be built.  The request it hands
    to [client.Do] is a POST for the given URL with the encoded data as
    body, the JSON content type and the configured user agent. *)
Theorem post_calls_Do_once_with_json url data (w : W) :
  (trace (post url data w) = []
   <-> (exists code, marshal data = inr code)
       \/ (exists code, checkRequest "POST" url = Some code))
  /\ (forall req,
        In (DoCall req) (trace (post url data w)) ->
        trace (post url data w) = [DoCall req]
        /\ Method req = "POST"
        /\ Target req = url
        /\ marshal data = inl (match Body req with Some b => b | None => "" end)
        /\ Body req <> None
        /\ Header req = [("Content-Type", "application/json");
                         ("User-Agent", userAgent)]).
Proof.
  unfold Api.post.
  destruct (marshal data) as [jsonData|code].
  - destruct (checkRequest "POST" url) as [code|].
    + split; [|intros req []].
      split; [intros _; right; exists code; reflexivity | reflexivity].
    + rewrite roundTrip_trace. split.
      * split; [discriminate|].
        intros [(c & H)|(c & H)]; discriminate H.
      * intros req [H|[]]. injection H as <-.
        repeat split; try reflexivity. discriminate.
  - split; [|intros req []].
    split; [intros _; left; exists code; reflexivity | reflexivity].
Qed.

(** X17.  The login of a site succeeds exactly when post handed back a
    body, the body decoded, and the decoded answer says success; an answer
    that says failure becomes an error carrying the server's message. *)
Theorem siteLogin_succeeds_iff site (w : W) :
  let url := LoginURL (siteOf (Sites (Ticketing config)) site) in
  let credentials := {| ReqUsername := Username (User config);
                        ReqPassword := Password (User config) |} in
  (answer (siteLogin site w) = None
   <-> exists body r,
         answer (post url credentials w) = Ok body
         /\ unmarshal body = inl r
         /\ Success r = true)
  /\ (forall body r,
        answer (post url credentials w) = Ok body ->
        unmarshal body = inl r ->
        Success r = false ->
        answer (siteLogin site w) = Some (LoginRejected (Message r))).
Proof.
  intros url credentials. unfold Api.siteLogin. fold url credentials.
  unfold answer.
  destruct (post url credentials w) as [[resp w1] t]; cbn [fst snd].
  destruct resp as [body|e]; cbn [fst snd].
  - destruct (unmarshal body) as [r|code] eqn:Hu; cbn [fst snd].
    + destruct (Success r) eqn:Hs; cbn [negb fst snd].
      * split.
        -- split; [intros _; exists body, r; auto | reflexivity].
        -- intros b r' Hb Hr' Hf. injection Hb as <-.
           rewrite Hu in Hr'. injection Hr' as <-. congruence.
      * split.
        -- split; [discriminate|].
           intros (b & r' & Hb & Hr' & Hs'). injection Hb as <-.
           rewrite Hu in Hr'. injection Hr' as <-. congruence.
        -- intros b r' Hb Hr' _. injection Hb as <-.
           rewrite Hu in Hr'. injection Hr' as <-. reflexivity.
    + split.
      * split; [discriminate|].
        intros (b & r' & Hb & Hr' & _). injection Hb as <-.
        rewrite Hu in Hr'. discriminate Hr'.
      * intros b r' Hb Hr' _. injection Hb as <-.
        rewrite Hu in Hr'. discriminate Hr'.
  - split.
    + split; [discriminate|]. intros (b & r' & Hb & _). discriminate Hb.
    + intros b r' Hb. discriminate Hb.
Qed.

(** X18.  Client.Login calls [client.Do] for the named site only: every
    request it hands to [client.Do] is a POST for the login URL the
    configuration gives for that very site, and for a site other than the
    three it knows it makes no call and returns the unsupported-site
    error. *)
Theorem Login_calls_Do_for_the_named_site site (w : W) :
  (forall req,
      In (DoCall req) (trace (Login site w)) ->
      supportedSite site = true
      /\ Target req = LoginURL (siteOf (Sites (Ticketing config)) site)
      /\ Method req = "POST")
  /\ (supportedSite site = false ->
      answer (Login site w) = Some (SiteNotSupported site)
      /\ trace (Login site w) = [LogLoginTo site]).
Proof.
  unfold Api.Login, supportedSite, answer, trace.
  assert (Hsite : forall s req,
             In (DoCall req) (snd (siteLogin s w)) ->
             Target req = LoginURL (siteOf (Sites (Ticketing config)) s)
             /\ Method req = "POST").
  { intros s req Hin. exact (siteLogin_requests s w req Hin). }
  destruct (String.eqb_spec site "interpark") as [->|H1].
  { split; [|discriminate]. intros req Hin.
    destruct (siteLogin "interpark" w) as [[r w1] t] eqn:Hrun.
    cbn [snd] in Hin. destruct Hin as [Hin|Hin]; [discriminate Hin|].
    split; [reflexivity|]. apply Hsite. rewrite Hrun. exact Hin. }
  destruct (String.eqb_spec site "yes24") as [->|H2].
  { split; [|discriminate]. intros req Hin.
    destruct (siteLogin "yes24" w) as [[r w1] t] eqn:Hrun.
    cbn [snd] in Hin. destruct Hin as [Hin|Hin]; [discriminate Hin|].
    split; [reflexivity|]. apply Hsite. rewrite Hrun. exact Hin. }
  destruct (String.eqb_spec site "melon") as [->|H3].
  { split; [|discriminate]. intros req Hin.
    destruct (siteLogin "melon" w) as [[r w1] t] eqn:Hrun.
    cbn [snd] in Hin. destruct Hin as [Hin|Hin]; [discriminate Hin|].
    split; [reflexivity|]. apply Hsite. rewrite Hrun. exact Hin. }
  cbn [fst snd orb]. split.
  - intros req [Hin|[]]. discriminate Hin.
  - intros _. split; reflexivity.
Qed.

End ApiFacts.

(* ================================================================== *)
(** ** More scenarios *)

Section MoreScenarios.
Import Grabber Browser Models Script Main.


Lemma login_without_site_entry_witness :
  exists r rest,
    events (login (D := driver (page onSale)) (site "yes24") 0%nat)
    = EvLog LogLoggingIn :: EvLog (LogNavigateTo "") :: EvNavigate "" r :: rest.
Proof.
  apply (login_without_site_entry (D := driver (page onSale)) (site "yes24") 0%nat).
  - reflexivity.
  - intros v [H|[]]. discriminate H.
Defined.

Lemma purchaseTicket_stops_at_failed_step_witness :
  purchaseTicket (D := driver (page noButton)) (show ["VIP"]) 0%nat
  = (Some (ConfirmFailed NoBuyButton), 5%nat,
     [EvLog LogPurchaseStart; EvLog LogSelectingSeats;
      EvEvaluate "[data-seat-type='VIP']" true None;
      EvClick "[data-seat-type='VIP']" None; EvLog (LogSeatTypeChosen "VIP");
      EvLog LogConfirming; EvEvaluate ".btn-purchase" false None;
      EvEvaluate ".btn-buy" false None;
      EvEvaluate "[data-action='purchase']" false None]).
Proof.
  destruct (proj2 (purchaseTicket_stops_at_failed_step
                     (D := driver (page noButton)) (show ["VIP"]) 0%nat)
              NoBuyButton eq_refl eq_refl) as [Hrun _].
  rewrite Hrun. reflexivity.
Defined.

Lemma post_accepts_only_200_witness :
  Api.answer (Api.post ApiScript.encode ApiScript.wellFormed
                (ApiScript.server 201 "created") "ua/1.0"
                "https://tickets.interpark.com/login"
                {| Api.ReqUsername := "fan"; Api.ReqPassword := "secret" |} 0%nat)
  = Api.Failed (Api.HTTPError 201 "created").
Proof.
  apply (proj2 (post_accepts_only_200 ApiScript.encode ApiScript.wellFormed
                  (ApiScript.server 201 "created") "ua/1.0"
                  "https://tickets.interpark.com/login"
                  {| Api.ReqUsername := "fan"; Api.ReqPassword := "secret" |} 0%nat)
           "fan:secret"
           {| Api.StatusCode := 201; Api.ReadBody := inl "created" |}
           "created");
    try reflexivity.
  discriminate.
Defined.

Lemma siteLogin_succeeds_iff_witness :
  Api.answer (Api.siteLogin ApiScript.encode ApiScript.decode ApiScript.wellFormed
                (ApiScript.server 200 "denied") (site "interpark") "ua/1.0"
                "interpark" 0%nat)
  = Some (Api.LoginRejected "wrong password").
Proof.
  apply (proj2 (siteLogin_succeeds_iff ApiScript.encode ApiScript.decode
                  ApiScript.wellFormed (ApiScript.server 200 "denied")
                  (site "interpark") "ua/1.0" "interpark" 0%nat)
           "denied"
           {| Api.Success := false; Api.Message := "wrong password";
              Api.Token := "" |});
    reflexivity.
Defined.

End MoreScenarios.

(* ================================================================== *)
(** ** get, the browser options, and the start of polling *)

Section Remaining.
Context {W : Type} {D : Driver W}.
Variable platform : float -> Z.
Variable config : Models.Config.
Import Grabber Browser Models.

(** X19.  get applies the same rule as post: the body comes back exactly
    when the request could be built, [client.Do] handed back a response,
    its body could be read and its status is 200.  The request get hands to
    [client.Do] is a GET for the given URL, without body, that carries the
    configured user agent and no content type. *)
Theorem get_accepts_only_200
  (checkRequest : string -> string -> option nat)
  (clientDo : Api.Request -> W -> (Api.Response + nat) * W)
  (userAgent url : string) (w : W) :
  (forall body,
      Api.answer (Api.get checkRequest clientDo userAgent url w) = Api.Ok body
      <-> checkRequest "GET" url = None
          /\ exists resp,
               fst (clientDo (Api.getRequest userAgent url) w) = inl resp
               /\ Api.ReadBody resp = inl body
               /\ Api.StatusCode resp = 200)
  /\ (forall req,
        In (Api.DoCall req) (Api.trace (Api.get checkRequest clientDo userAgent url w)) ->
        Api.Method req = "GET"
        /\ Api.Target req = url
        /\ Api.Body req = None
        /\ Api.Header req = [("User-Agent", userAgent)]).
Proof.
  unfold Api.get. destruct (checkRequest "GET" url) as [code|].
  - split; [|intros req []].
    intro body. split; [discriminate | intros [H _]; discriminate H].
  - split.
    + intro body. rewrite roundTrip_answer. split; [auto | intros [_ H]; exact H].
    + intros req. rewrite roundTrip_trace. intros [H|[]].
      injection H as <-. repeat split.
Qed.

(** X20.  NewBrowser never fails, always passes the eight fixed options
    first and in their order, and adds the headless option exactly when
    asked for headless mode and the logging flag exactly when asked for
    debugging. *)
Theorem NewBrowser_options (o : Chrome.Options) :
  snd (Chrome.NewBrowser o) = None
  /\ Chrome.opts (fst (Chrome.NewBrowser o)) = o
  /\ firstn 8 (Chrome.allocator (fst (Chrome.NewBrowser o)))
     = [Chrome.NoFirstRun; Chrome.NoDefaultBrowserCheck; Chrome.DisableGPU;
        Chrome.NoSandbox; Chrome.Flag "disable-dev-shm-usage" true;
        Chrome.Flag "disable-infobars" true;
        Chrome.Flag "disable-extensions" true;
        Chrome.Flag "start-maximized" true]
  /\ (In Chrome.Headless (Chrome.allocator (fst (Chrome.NewBrowser o)))
      <-> Chrome.OptHeadless o = true)
  /\ (In (Chrome.Flag "enable-logging" true)
         (Chrome.allocator (fst (Chrome.NewBrowser o)))
      <-> Chrome.OptDebug o = true).
Proof.
  destruct o as [[|] [|] timeout]; cbn;
    (split; [reflexivity|]); (split; [reflexivity|]); (split; [reflexivity|]);
    split; split; intro H;
    try reflexivity; try discriminate H;
    try (repeat (destruct H as [H|H]; [discriminate H|]); contradiction);
    auto 12.
Qed.

Lemma setup_has_no_monitor_start t :
  only isSetupEvent t -> ~ In (EvLog LogMonitorStart) t.
Proof.
  intro Ht. apply (only_not_in (fun e => negb (isSetupEvent e))); [|reflexivity].
  eapply only_weaken; [|exact Ht].
  intros e He. unfold isNot. rewrite He. reflexivity.
Qed.

Lemma monitorTickets_opens_with_its_log fuel concert (w : W) :
  exists rest,
    events (monitorTickets platform config fuel concert w)
    = EvLog LogMonitorStart :: rest.
Proof.
  destruct (monitorTickets_events platform config fuel concert w)
    as [->|(tail & -> & _)]; eexists; reflexivity.
Qed.

(** X21.  Start begins to monitor exactly when both the login and the
    navigation to the concert page succeeded; everything before the opening
    line of the monitoring is login and navigation, ending with the two
    seconds in which the page settles. *)
Theorem Start_monitors_only_after_setup fuel concert (w : W) :
  (In (EvLog LogMonitorStart) (events (Start platform config fuel concert w))
   <-> result (login config w) = None
       /\ result (navigateToConcert concert (final (login config w))) = None)
  /\ (result (login config w) = None ->
      result (navigateToConcert concert (final (login config w))) = None ->
      exists setup rest,
        events (Start platform config fuel concert w)
        = setup ++ [EvSleep (2 * Time.Second); EvLog LogEnteredConcert;
                    EvLog LogMonitorStart] ++ rest
        /\ only isSetupEvent setup
        /\ count isSleep setup = 0%nat).
Proof.
  rewrite Start_run.
  pose proof (only_login config w) as Hlogin.
  pose proof (navigateToConcert_run concert (final (login config w))) as Hnav.
  destruct (result (login config w)) as [e|] eqn:Hl.
  { rewrite events_run. split; [|discriminate].
    split; [|intros [H _]; discriminate H]. intro Hin. exfalso.
    destruct Hin as [Hin|Hin]; [discriminate Hin|].
    exact (setup_has_no_monitor_start _ (login_is_setup _ Hlogin) Hin). }
  destruct (result (navigateToConcert concert (final (login config w))))
    as [e|] eqn:Hn.
  { rewrite events_run. split; [|intros _ H; discriminate H].
    split; [|intros [_ H]; discriminate H]. intro Hin. exfalso.
    destruct Hin as [Hin|Hin]; [discriminate Hin|].
    apply in_app_or in Hin. destruct Hin as [Hin|Hin].
    - exact (setup_has_no_monitor_start _ (login_is_setup _ Hlogin) Hin).
    - exact (setup_has_no_monitor_start _ (only_navigateToConcert _ _) Hin). }
  rewrite events_run.
  destruct (monitorTickets_opens_with_its_log fuel concert
              (final (navigateToConcert concert (final (login config w)))))
    as (rest & Hm).
  split.
  - split; [auto|]. intros _. right. apply in_or_app. right.
    apply in_or_app. right. rewrite Hm. left. reflexivity.
  - intros _ _.
    destruct (fst (runNavigate (URL concert) (final (login config w)))) as [e|];
      [rewrite Hnav in Hn; discriminate Hn|].
    exists (EvLog (LogStart (Name concert)) :: events (login config w)
            ++ [EvLog (LogEnteringConcert (URL concert));
                EvLog (LogNavigateTo (URL concert));
                EvNavigate (URL concert) None]), rest.
    split; [|split].
    + rewrite Hm, Hnav, events_run. cbn [app]. rewrite <- app_assoc. reflexivity.
    + constructor; [reflexivity|]. apply Forall_app.
      split; [apply login_is_setup, Hlogin | repeat constructor].
    + change (EvLog (LogStart (Name concert)) :: events (login config w)
              ++ [EvLog (LogEnteringConcert (URL concert));
                  EvLog (LogNavigateTo (URL concert));
                  EvNavigate (URL concert) None])
        with ([EvLog (LogStart (Name concert))] ++ events (login config w)
              ++ [EvLog (LogEnteringConcert (URL concert));
                  EvLog (LogNavigateTo (URL concert));
                  EvNavigate (URL concert) None]).
      rewrite !count_app. rewrite (count_none isSleep (events (login config w))).
      * reflexivity.
      * eapply only_weaken; [|exact Hlogin].
        intros [[]| | | | | | | | |] He; try discriminate He; reflexivity.
Qed.

End Remaining.
